(** * check_judol.py: a shallow embedding and its properties

    The script reads a sitemap, fetches every listed URL through a bounded
    thread pool, scans each body for gambling-spam keywords and writes a
    JSON report.  Python values are modelled as follows.

    - [str] is a list of Unicode code points ([list N]); [len] is [length].
    - [int] is [Z]; [bool] is [bool]; [None] is [None] of an option.
    - A call that may raise returns an [outcome]: [Return v] or [Raise e].
    - Library objects (ElementTree elements, requests sessions, urllib3
      retry policies, futures) are records holding the fields the script
      reads or writes.
    - What the outside world decides (file contents, the XML parser's
      verdict, network replies, thread scheduling, the encoding of the
      terminal) is a parameter or a step relation. *)

From Stdlib Require Import NArith ZArith QArith String Ascii Lia.
From Stdlib Require Import DecimalFacts DecimalPos.
From stdpp Require Import base list gmap.

Set Warnings "-register-all,-clear-no-such-hyp".

Local Open Scope N_scope.

(** ** Python strings *)

Abbreviation pystr := (list N).

(** A string literal of the source, as code points. *)
Definition py (s : string) : pystr :=
map N_of_ascii (list_ascii_of_string s).

Definition pystr_eqb (a b : pystr) : bool := bool_decide (a = b).

Lemma pystr_eqb_eq (a b : pystr) : pystr_eqb a b = true <-> a = b.
Proof. unfold pystr_eqb. apply bool_decide_eq_true. Qed.

Module PyStr.

(** [str.isspace] on one code point: the whitespace table of CPython
    ([_PyUnicode_IsWhitespace]). *)
Definition isspace (c : N) : bool :=
((0x09 <=? c) && (c <=? 0x0D)) || ((0x1C <=? c) && (c <=? 0x20))
|| (c =? 0x85) || (c =? 0xA0) || (c =? 0x1680)
|| ((0x2000 <=? c) && (c <=? 0x200A))
|| (c =? 0x2028) || (c =? 0x2029) || (c =? 0x202F) || (c =? 0x205F)
|| (c =? 0x3000).

(** [s.lstrip] / [s.rstrip] / [s.strip] for a set of characters given as a
    predicate: drop the longest prefix (suffix) of matching characters. *)
Fixpoint lstrip_by (p : N -> bool) (s : pystr) : pystr :=
match s with
| [] => []
| c :: r => if p c then lstrip_by p r else s
end.

Definition rstrip_by (p : N -> bool) (s : pystr) : pystr :=
rev (lstrip_by p (rev s)).

Definition strip_by (p : N -> bool) (s : pystr) : pystr :=
rstrip_by p (lstrip_by p s).

(** [s.strip()] *)
Definition strip (s : pystr) : pystr := strip_by isspace s.

(** [s.strip(chars)] *)
Definition strip_chars (chars s : pystr) : pystr :=
strip_by (fun c => bool_decide (c ∈ chars)) s.

(** [s.startswith(p)] *)
Fixpoint startswith (p s : pystr) : bool :=
match p, s with
| [], _ => true
| _ :: _, [] => false
| a :: p', b :: s' => (a =? b) && startswith p' s'
end.

(** [needle in hay] *)
Fixpoint contains (needle hay : pystr) : bool :=
startswith needle hay ||
match hay with
| [] => false
| _ :: t => contains needle t
end.

(** [s.split(sep)] for a one-character separator. *)
Fixpoint split_char (sep : N) (s : pystr) : list pystr :=
match s with
| [] => [[]]
| c :: r =>
    if c =? sep then [] :: split_char sep r
    else match split_char sep r with
         | [] => [[c]]
         | h :: t => (c :: h) :: t
         end
end.

(** [pre] and [post] surround an occurrence of [k] in [s]. *)
Definition substring (k s : pystr) : Prop :=
exists pre post, s = pre ++ k ++ post.

(** [core] is [s] without its leading and trailing whitespace. *)
Definition trimmed (s core : pystr) : Prop :=
exists l r, s = l ++ core ++ r
  /\ Forall (fun c => isspace c = true) l
  /\ Forall (fun c => isspace c = true) r
  /\ (forall c t, core = c :: t -> isspace c = false)
  /\ (forall t c, core = t ++ [c] -> isspace c = false).

Lemma startswith_spec (p s : pystr) :
  startswith p s = true <-> exists post, s = p ++ post.
Proof.
  revert s. induction p as [|a p IH]; intros s; simpl.
  - split; [eauto | done].
  - destruct s as [|b s].
    + split; [done | intros [post H]; discriminate].
    + rewrite andb_true_iff, N.eqb_eq, IH. split.
      * intros [-> [post ->]]. eauto.
      * intros [post H]. injection H as -> ->. eauto.
Qed.

Lemma contains_spec (k s : pystr) : contains k s = true <-> substring k s.
Proof.
  unfold substring. induction s as [|c s IH]; simpl.
  - rewrite orb_false_r, startswith_spec. split.
    + intros [post H]. exists [], post. done.
    + intros (pre & post & H). destruct pre; simpl in H.
      * eauto.
      * discriminate.
  - rewrite orb_true_iff, startswith_spec, IH. split.
    + intros [[post H] | (pre & post & H)].
      * exists [], post. done.
      * exists (c :: pre), post. simpl. by f_equal.
    + intros (pre & post & H). destruct pre as [|d pre]; simpl in H.
      * left. eauto.
      * right. injection H as _ H. eauto.
Qed.

Lemma lstrip_by_decomp p s :
  exists l, s = l ++ lstrip_by p s /\ Forall (fun c => p c = true) l.
Proof.
  induction s as [|c s (l & Hs & Hl)]; simpl.
  - exists []. split; [done | constructor].
  - destruct (p c) eqn:E.
    + exists (c :: l). split; [simpl; by f_equal | by constructor].
    + exists []. split; [done | constructor].
Qed.

Lemma lstrip_by_head p s c t : lstrip_by p s = c :: t -> p c = false.
Proof.
  induction s as [|d s IH]; simpl; [done |].
  destruct (p d) eqn:E; [done |]. intros H. injection H as -> _. done.
Qed.

Lemma lstrip_by_stop p c t : p c = false -> lstrip_by p (c :: t) = c :: t.
Proof. intros H. simpl. by rewrite H. Qed.

Lemma lstrip_by_all p l s :
  Forall (fun c => p c = true) l -> lstrip_by p (l ++ s) = lstrip_by p s.
Proof. induction 1 as [|c l Hc _ IH]; simpl; [done | by rewrite Hc]. Qed.

Lemma rstrip_by_decomp p s :
  exists r, s = rstrip_by p s ++ r /\ Forall (fun c => p c = true) r.
Proof.
  unfold rstrip_by. destruct (lstrip_by_decomp p (rev s)) as (l & Hs & Hl).
  exists (rev l). split.
  - rewrite <- rev_app_distr, <- Hs. by rewrite rev_involutive.
  - by apply Forall_rev.
Qed.

Lemma rstrip_by_last p s t c : rstrip_by p s = t ++ [c] -> p c = false.
Proof.
  unfold rstrip_by. intros H. apply (f_equal (@rev N)) in H.
  rewrite rev_involutive, rev_app_distr in H. simpl in H.
  by apply lstrip_by_head in H.
Qed.

Lemma rstrip_by_stop p t c : p c = false -> rstrip_by p (t ++ [c]) = t ++ [c].
Proof.
  intros H. unfold rstrip_by. rewrite rev_app_distr. simpl. rewrite H.
  simpl. rewrite rev_involutive. done.
Qed.

Lemma rstrip_by_all p s r :
  Forall (fun c => p c = true) r -> rstrip_by p (s ++ r) = rstrip_by p s.
Proof.
  intros H. unfold rstrip_by. rewrite rev_app_distr.
  rewrite lstrip_by_all; [done | by apply Forall_rev].
Qed.

Lemma rstrip_by_head p s c t : rstrip_by p s = c :: t -> exists t', s = c :: t'.
Proof.
  destruct (rstrip_by_decomp p s) as (r & Hs & _). intros H.
  rewrite H in Hs. simpl in Hs. eauto.
Qed.

(** [strip] returns the trimmed core, *)
Lemma strip_trimmed s : trimmed s (strip s).
Proof.
  unfold trimmed, strip, strip_by.
  destruct (lstrip_by_decomp isspace s) as (l & Hl & Fl).
  destruct (rstrip_by_decomp isspace (lstrip_by isspace s)) as (r & Hr & Fr).
  exists l, r. repeat split; try done.
  - rewrite <- Hr. done.
  - intros c t H. destruct (rstrip_by_head _ _ _ _ H) as [t' Ht'].
    by apply lstrip_by_head in Ht'.
  - intros t c H. by apply rstrip_by_last in H.
Qed.

(** and the trimmed core is unique. *)
Lemma trimmed_strip s core : trimmed s core -> core = strip s.
Proof.
  intros (l & r & -> & Fl & Fr & Hh & Ht). unfold strip, strip_by.
  rewrite lstrip_by_all by done.
  destruct core as [|c t].
  - simpl. rewrite <- (app_nil_r (lstrip_by _ r)).
    pose proof (lstrip_by_all isspace r [] Fr) as E.
    rewrite !app_nil_r in *. simpl in E. rewrite E. done.
  - rewrite <- app_comm_cons, lstrip_by_stop by eauto.
    rewrite app_comm_cons, rstrip_by_all by done.
    destruct (exists_last (l:=c :: t)) as (t' & c' & E); [done |].
    rewrite E. symmetry. apply rstrip_by_stop. eauto.
Qed.

End PyStr.

(** ** [str.lower]

    CPython lowercases code point by code point through the Unicode
    database ([_PyUnicode_ToLowerFull], one to three code points), except
    for capital sigma, whose image depends on the surrounding letters.
    The database is not part of the script: it is a parameter.  ASCII is
    fixed by CPython itself ([Py_TOLOWER]). *)

Class UnicodeData := {
  tolower_full : N -> list N;
  is_cased : N -> bool;
  is_case_ignorable : N -> bool
}.

(** A database that knows no letter beyond ASCII. *)
Definition ascii_only : UnicodeData :=
{| tolower_full := fun c => [c];
   is_cased := fun c => ((0x41 <=? c) && (c <=? 0x5A)) || ((0x61 <=? c) && (c <=? 0x7A));
   is_case_ignorable := fun c => (c =? 0x27) || (c =? 0x2E) || (c =? 0x3A) |}.

Module Lower.
Section WithUnicode.
Context {U : UnicodeData}.

Definition capital_sigma : N := 0x3A3.
Definition final_small_sigma : N := 0x3C2.
Definition small_sigma : N := 0x3C3.

Definition lower_char (c : N) : list N :=
if c <? 0x80 then [if (0x41 <=? c) && (c <=? 0x5A) then c + 0x20 else c]
else tolower_full c.

(** [handle_capital_sigma]: the sigma at hand is final when the nearest
    character before it that is not case-ignorable is cased and the
    nearest such character after it (if any) is not. *)
Definition final_sigma (before_rev after : pystr) : bool :=
match find (fun c => negb (is_case_ignorable c)) before_rev with
| None => false
| Some c =>
    is_cased c &&
    match find (fun c => negb (is_case_ignorable c)) after with
    | None => true
    | Some d => negb (is_cased d)
    end
end.

(** [lower_ucs4] along the string; [before_rev] holds the characters
    already passed, nearest first. *)
Fixpoint lower_from (before_rev s : pystr) : pystr :=
match s with
| [] => []
| c :: rest =>
    (if c =? capital_sigma
     then [if final_sigma before_rev rest then final_small_sigma else small_sigma]
     else lower_char c)
    ++ lower_from (c :: before_rev) rest
end.

(** [s.lower()] *)
Definition lower (s : pystr) : pystr := lower_from [] s.

(** ** PageScanner: the two flags computed in [fetch_url] *)

Definition keywords : list pystr :=
[py "judol"; py "gacor"; py "togel"; py "maxwin"].

(** [any(keyword in text_lower for keyword in (...))] *)
Definition has_judol (text : pystr) : bool :=
let text_lower := lower text in
existsb (fun keyword => PyStr.contains keyword text_lower) keywords.

(** [text.strip().lower() == 'judol'] *)
Definition exact_judol (text : pystr) : bool :=
pystr_eqb (lower (PyStr.strip text)) (py "judol").

(** *** Lowercasing and concatenation *)

Lemma lower_from_app_r before l s :
  exists x, lower_from before (l ++ s) = x ++ lower_from (rev l ++ before) s.
Proof.
  revert before. induction l as [|c l IH]; intros before; simpl.
  - by exists [].
  - destruct (IH (c :: before)) as [x Hx]. rewrite Hx.
    rewrite <- (app_assoc (rev l) [c] before). simpl.
    eexists. rewrite app_assoc. reflexivity.
Qed.

Lemma lower_from_no_sigma before s r :
  capital_sigma ∉ s ->
  lower_from before (s ++ r)
  = flat_map lower_char s ++ lower_from (rev s ++ before) r.
Proof.
  revert before. induction s as [|c s IH]; intros before Hs; simpl; [done |].
  apply not_elem_of_cons in Hs as [Hc Hs].
  destruct (N.eqb_spec c capital_sigma) as [->|_]; [done |].
  rewrite IH by done. rewrite <- (app_assoc (rev s) [c] before). simpl.
  by rewrite app_assoc.
Qed.

Lemma lower_from_sigma before s :
  capital_sigma ∈ s ->
  final_small_sigma ∈ lower_from before s \/ small_sigma ∈ lower_from before s.
Proof.
  revert before. induction s as [|c s IH]; intros before Hs.
  - by apply elem_of_nil in Hs.
  - simpl. apply elem_of_cons in Hs as [<-|Hs].
    + rewrite N.eqb_refl. destruct (final_sigma before s); simpl.
      * left. apply elem_of_cons. by left.
      * right. apply elem_of_cons. by left.
    + destruct (IH (c :: before) Hs) as [H|H].
      * left. apply elem_of_app. by right.
      * right. apply elem_of_app. by right.
Qed.

Lemma lower_judol_no_sigma s : lower s = py "judol" -> capital_sigma ∉ s.
Proof.
  intros H Hs. apply (lower_from_sigma []) in Hs. fold (lower s) in Hs.
  rewrite H in Hs. destruct Hs as [Hs|Hs];
    apply list_elem_of_In in Hs; vm_compute in Hs; intuition discriminate.
Qed.

End WithUnicode.
End Lower.

(** ** Exceptions

    An [Exception] value stands for an instance of Python's [Exception]
    class, the class every error derives from and the one the script's
    handlers name; [exc_str] is what [str(e)] returns.  The signals of the
    interpreter that derive from [BaseException] alone ([KeyboardInterrupt],
    [SystemExit]) are no outcome of the calls modelled here. *)

Inductive ExcClass :=
| ParseError          (* xml.etree.ElementTree.ParseError *)
| OSError             (* FileNotFoundError, PermissionError, ... *)
| ValueError
| LookupError
| UnicodeEncodeError
| RequestException    (* ConnectionError, Timeout, InvalidSchema, ... *)
| OtherException (name : pystr).

Record Exception := { exc_class : ExcClass; exc_str : pystr }.

Inductive outcome (A : Type) :=
| Return (a : A)
| Raise (e : Exception).
Arguments Return {A} a.
Arguments Raise {A} e.

#[global] Instance outcome_ret : MRet outcome := fun A a => Return a.
#[global] Instance outcome_bind : MBind outcome := fun A B f m =>
  match m with
  | Return a => f a
  | Raise e => Raise e
  end.

(** [try: body except Exception as e: handler(e)] *)
Definition try_except {A} (body : outcome A) (handler : Exception -> outcome A)
  : outcome A :=
match body with
| Return a => Return a
| Raise e => handler e
end.

Definition raises {A} (m : outcome A) (c : ExcClass) : Prop :=
exists e, m = Raise e /\ exc_class e = c.

(** ** ElementTree *)

Module ET.

(** An element as the script sees it: its tag (with the namespace in
    braces in front, as ElementTree writes it), the text before its first
    child ([None] when there is none) and its children. *)
Inductive Element :=
Elem { tag : pystr; text : option pystr; children : list Element }.

(** [elem.iter()]: the element and its descendants in document order. *)
Fixpoint iter (e : Element) : list Element :=
e :: (fix over (l : list Element) : list Element :=
        match l with
        | [] => []
        | c :: l' => iter c ++ over l'
        end) (children e).

(** [root.findall(path)] for a path of the form [.//name], the only form
    the script builds: the descendants of [root], itself excluded, whose
    tag is [name].  (Python 3.8 reads a namespace written [*] as a
    wildcard; the model compares tags for equality.) *)
Definition findall (path : pystr) (root : Element) : list Element :=
if PyStr.startswith (py ".//") path
then filter (fun e => tag e = drop 3 path) (tail (iter root))
else [].

End ET.

(** ** requests and urllib3 configuration objects *)

(** [urllib3.util.retry.Retry], the fields set by the script.  The float
    [backoff_factor] is kept as the exact decimal written in the source. *)
Record Retry := {
  total : Z;
  backoff_factor : Q;
  status_forcelist : list Z
}.

(** [requests.adapters.HTTPAdapter] *)
Record HTTPAdapter := { max_retries : Retry }.

(** [requests.Session]: the mounted adapters in the order of the
    session's ordered dictionary, and the headers sent with every request,
    a case-insensitive dictionary: lowercased name to (name, value). *)
Record Session := {
  adapters : list (pystr * HTTPAdapter);
  headers : gmap pystr (pystr * pystr)
}.

(** [requests.Response]: reading [r.text] may itself raise. *)
Record Response := {
  status_code : Z;
  r_text : outcome (option pystr)
}.

(** ** Python values that reach the report *)

Inductive value :=
| VNone
| VBool (b : bool)
| VInt (z : Z)
| VStr (s : pystr)
| VList (l : list value)
| VDict (d : list (pystr * value)).

(** ** The world outside the script *)

(** What the XML parser makes of the content of a file.  Besides the
    syntax errors of expat, which ElementTree raises as [ParseError], the
    parser fails on a declared encoding it has no codec for, or whose codec
    is multi-byte; these two exceptions come from the codec lookup and are
    not turned into a [ParseError]. *)
Inductive Parsed :=
| Tree (root : ET.Element)
| NotWellFormed (msg : pystr)      (* ParseError(msg) *)
| UnknownEncoding (name : pystr)   (* LookupError: unknown encoding: name *)
| MultiByteEncoding.               (* ValueError *)

Record World := {
  (** files that can be opened for reading, with their content *)
  files : gmap pystr pystr;
  (** [str] of the [OSError] raised for a path that cannot be opened *)
  strerror : pystr -> pystr;
  (** whether the file system lets [open(path, 'w')] succeed *)
  writable : pystr -> bool;
  (** the XML parser *)
  xml_parse : pystr -> Parsed;
  (** headers of a fresh [requests.Session()] *)
  default_headers : gmap pystr (pystr * pystr);
  (** outcome of the GET issued by the [n]-th submitted task *)
  http_get : nat -> Session -> pystr -> Z -> outcome Response;
  (** the code points the encoding of [sys.stdout] can encode; its error
      handler is [strict] *)
  stdout_encodable : N -> bool
}.

(** [open] refuses a path that holds a NUL character before it asks the
    file system. *)
Definition embedded_null : Exception :=
{| exc_class := ValueError; exc_str := py "embedded null byte" |}.

(** [open(path, 'rb')] followed by reading the file: its content. *)
Definition open_read (w : World) (path : pystr) : outcome pystr :=
if bool_decide (0 ∈ path) then Raise embedded_null
else match files w !! path with
     | Some content => Return content
     | None => Raise {| exc_class := OSError; exc_str := strerror w path |}
     end.

(** [open(path, 'w', encoding='utf-8')]: the exception raised, if any. *)
Definition open_write (w : World) (path : pystr) : option Exception :=
if bool_decide (0 ∈ path) then Some embedded_null
else if writable w path then None
else Some {| exc_class := OSError; exc_str := strerror w path |}.

(** [ET.parse(path).getroot()] *)
Definition ET_parse (w : World) (path : pystr) : outcome ET.Element :=
content ← open_read w path;
match xml_parse w content with
| Tree root => Return root
| NotWellFormed msg => Raise {| exc_class := ParseError; exc_str := msg |}
| UnknownEncoding name =>
    Raise {| exc_class := LookupError;
             exc_str := py "unknown encoding: " ++ name |}
| MultiByteEncoding =>
    Raise {| exc_class := ValueError;
             exc_str := py "multi-byte encodings are not supported" |}
end.

(** ** SitemapReader *)

(** [[e.text.strip() for e in locs if e is not None and e.text]] *)
Definition loc_texts (locs : list ET.Element) : list pystr :=
omap (fun e => match ET.text e with
               | Some (c :: t) => Some (PyStr.strip (c :: t))
               | _ => None
               end) locs.

Definition parse_sitemap (w : World) (path : pystr) : outcome (list pystr) :=
root ← ET_parse w path;
let ns :=
  if PyStr.startswith (py "{") (ET.tag root)
  then PyStr.strip_chars (py "{")
         (default [] (head (PyStr.split_char 0x7D (ET.tag root))))
  else [] in
let locs :=
  match ns with
  | _ :: _ => ET.findall (py ".//{" ++ ns ++ py "}loc") root
  | [] => ET.findall (py ".//loc") root
  end in
let urls := loc_texts locs in
mret urls.

(** ** HTTPFetcher: the session *)

Section Fetcher.
Context {U : UnicodeData}.

(** [self.adapters[prefix] = adapter] on the ordered dictionary. *)
Fixpoint adapters_set (prefix : pystr) (a : HTTPAdapter)
  (l : list (pystr * HTTPAdapter)) : list (pystr * HTTPAdapter) :=
match l with
| [] => [(prefix, a)]
| (k, b) :: r =>
    if bool_decide (k = prefix) then (k, a) :: r
    else (k, b) :: adapters_set prefix a r
end.

(** [Session.mount]: set the adapter, then move every shorter prefix
    behind it, so that lookup meets longer prefixes first. *)
Definition mount (prefix : pystr) (a : HTTPAdapter) (s : Session) : Session :=
let l := adapters_set prefix a (adapters s) in
let shorter (kv : pystr * HTTPAdapter) : bool :=
  bool_decide (length kv.1 < length prefix)%nat in
{| adapters := filter (fun kv => shorter kv = false) l
               ++ filter (fun kv => shorter kv = true) l;
   headers := headers s |}.

(** [s.headers.update({name: v})] and [s.headers[name]] *)
Definition headers_update (name v : pystr) (s : Session) : Session :=
{| adapters := adapters s;
   headers := <[Lower.lower name := (name, v)]> (headers s) |}.

Definition header (s : Session) (name : pystr) : option pystr :=
snd <$> headers s !! Lower.lower name.

(** [HTTPAdapter()] retries nothing. *)
Definition default_adapter : HTTPAdapter :=
{| max_retries := {| total := 0; backoff_factor := 0; status_forcelist := [] |} |}.

(** [requests.Session()] *)
Definition new_session (w : World) : Session :=
mount (py "http://") default_adapter
  (mount (py "https://") default_adapter
     {| adapters := []; headers := default_headers w |}).

Definition make_session (w : World) (retries : Z) (backoff : Q) (timeout : Z)
  : Session :=
let s := new_session w in
let retry := {| total := retries; backoff_factor := backoff;
                status_forcelist := [500; 502; 503; 504]%Z |} in
let adapter := {| max_retries := retry |} in
let s := mount (py "http://") adapter s in
let s := mount (py "https://") adapter s in
let s := headers_update (py "User-Agent") (py "judol-checker/1.0") s in
s.

(** The default arguments of [make_session] and of [fetch_url]. *)
Definition default_retries : Z := 3.
Definition default_backoff : Q := 3 # 10.
Definition default_timeout : Z := 10.

(** ** HTTPFetcher and PageScanner: one task *)

Definition success_dict (url : pystr) (status : Z) (has exact : bool) (len : nat)
  : value :=
VDict [(py "url", VStr url); (py "ok", VBool true);
       (py "status_code", VInt status); (py "has_judol", VBool has);
       (py "exact_judol", VBool exact); (py "length", VInt (Z.of_nat len))].

Definition failure_dict (url : pystr) (error : pystr) : value :=
VDict [(py "url", VStr url); (py "ok", VBool false); (py "error", VStr error)].

(** The two shapes of a FetchResult. *)
Definition is_fetch_result (v : value) : Prop :=
(exists url status has exact len, v = success_dict url status has exact len)
\/ (exists url error, v = failure_dict url error).

(** [r.text or ''] *)
Definition body_text (t : option pystr) : pystr :=
match t with
| Some (c :: s) => c :: s
| _ => []
end.

(** [get] is [session.get] as the world answers it for this call. *)
Definition fetch_url (get : Session -> pystr -> Z -> outcome Response)
  (session : Session) (url : pystr) (timeout : Z) : outcome value :=
try_except
  (r ← get session url timeout;
   t ← r_text r;
   let text := body_text t in
   let has_judol := Lower.has_judol text in
   let exact_judol := Lower.exact_judol text in
   mret (success_dict url (status_code r) has_judol exact_judol (length text)))
  (fun e => mret (failure_dict url (exc_str e))).

End Fetcher.

(** ** ReportWriter: [json.dump(report, fh, indent=2, ensure_ascii=False)] *)

Module Json.

Definition quote : N := 0x22.
Definition backslash : N := 0x5C.

Definition hex_digit (n : N) : N :=
if n <? 10 then 0x30 + n else 0x61 + (n - 10).

(** [ESCAPE_DCT] of [json.encoder] as used by [encode_basestring]: only
    the quote, the backslash and the control characters are escaped. *)
Definition escape_char (c : N) : pystr :=
if c =? quote then [backslash; quote]
else if c =? backslash then [backslash; backslash]
else if c =? 0x0A then [backslash; 0x6E]
else if c =? 0x0D then [backslash; 0x72]
else if c =? 0x09 then [backslash; 0x74]
else if c =? 0x08 then [backslash; 0x62]
else if c =? 0x0C then [backslash; 0x66]
else if c <? 0x20
     then [backslash; 0x75; 0x30; 0x30; hex_digit (c / 16); hex_digit (c mod 16)]
else [c].

Definition encode_basestring (s : pystr) : pystr :=
[quote] ++ flat_map escape_char s ++ [quote].

(** [int.__repr__] *)
Fixpoint uint_chars (d : Decimal.uint) : pystr :=
match d with
| Decimal.Nil => []
| Decimal.D0 u => 0x30 :: uint_chars u
| Decimal.D1 u => 0x31 :: uint_chars u
| Decimal.D2 u => 0x32 :: uint_chars u
| Decimal.D3 u => 0x33 :: uint_chars u
| Decimal.D4 u => 0x34 :: uint_chars u
| Decimal.D5 u => 0x35 :: uint_chars u
| Decimal.D6 u => 0x36 :: uint_chars u
| Decimal.D7 u => 0x37 :: uint_chars u
| Decimal.D8 u => 0x38 :: uint_chars u
| Decimal.D9 u => 0x39 :: uint_chars u
end.

Definition intstr (z : Z) : pystr :=
match z with
| Z0 => [0x30]
| Zpos p => uint_chars (Pos.to_uint p)
| Zneg p => 0x2D :: uint_chars (Pos.to_uint p)
end.

(** ['\n' + _indent * _current_indent_level] with [_indent = '  '] *)
Definition newline_indent (level : nat) : pystr :=
0x0A :: replicate (2 * level) 0x20.

Definition item_separator (level : nat) : pystr :=
0x2C :: newline_indent level.

Definition key_separator : pystr := [0x3A; 0x20].

(** [_iterencode], the chunks concatenated. *)
Fixpoint encode (level : nat) (v : value) : pystr :=
match v with
| VNone => py "null"
| VBool true => py "true"
| VBool false => py "false"
| VInt z => intstr z
| VStr s => encode_basestring s
| VList [] => py "[]"
| VList (x :: r) =>
    [0x5B] ++ newline_indent (S level) ++ encode (S level) x
    ++ (fix items (l : list value) : pystr :=
          match l with
          | [] => []
          | y :: l' => item_separator (S level) ++ encode (S level) y ++ items l'
          end) r
    ++ newline_indent level ++ [0x5D]
| VDict [] => py "{}"
| VDict ((k, x) :: r) =>
    [0x7B] ++ newline_indent (S level)
    ++ encode_basestring k ++ key_separator ++ encode (S level) x
    ++ (fix items (l : list (pystr * value)) : pystr :=
          match l with
          | [] => []
          | (k', y) :: l' =>
              item_separator (S level) ++ encode_basestring k'
              ++ key_separator ++ encode (S level) y ++ items l'
          end) r
    ++ newline_indent level ++ [0x7D]
end.

Definition dumps (v : value) : pystr := encode 0 v.

(** *** [json.load]: the decoder that reads the report back

    Floats are outside the model: a number with a fraction or an exponent,
    [NaN] and [Infinity] give [None], as a malformed document does. *)

Definition is_ws (c : N) : bool :=
(c =? 0x20) || (c =? 0x09) || (c =? 0x0A) || (c =? 0x0D).

Definition skip_ws (s : pystr) : pystr := PyStr.lstrip_by is_ws s.

Definition is_digit (c : N) : bool := (0x30 <=? c) && (c <=? 0x39).

Definition hex_value (c : N) : option N :=
if (0x30 <=? c) && (c <=? 0x39) then Some (c - 0x30)
else if (0x61 <=? c) && (c <=? 0x66) then Some (c - 0x61 + 10)
else if (0x41 <=? c) && (c <=? 0x46) then Some (c - 0x41 + 10)
else None.

(** [_decode_uXXXX] *)
Definition decode_uXXXX (a b c d : N) : option N :=
a' ← hex_value a; b' ← hex_value b; c' ← hex_value c; d' ← hex_value d;
Some (((a' * 16 + b') * 16 + c') * 16 + d').

(** [BACKSLASH] of [json.decoder] *)
Definition backslash_char (e : N) : option N :=
if e =? quote then Some quote
else if e =? backslash then Some backslash
else if e =? 0x2F then Some 0x2F
else if e =? 0x62 then Some 0x08
else if e =? 0x66 then Some 0x0C
else if e =? 0x6E then Some 0x0A
else if e =? 0x72 then Some 0x0D
else if e =? 0x74 then Some 0x09
else None.

Definition push {A} (c : N) (r : option (pystr * A)) : option (pystr * A) :=
match r with
| Some (s, rest) => Some (c :: s, rest)
| None => None
end.

(** [scanstring(s, end, strict=True)], started after the opening quote:
    the decoded string and what follows the closing quote. *)
Fixpoint scanstring (s : pystr) : option (pystr * pystr) :=
match s with
| [] => None
| c :: r =>
    if c =? quote then Some ([], r)
    else if c =? backslash then
      match r with
      | [] => None
      | e :: r1 =>
          if e =? 0x75 then
            match r1 with
            | h1 :: h2 :: h3 :: h4 :: r2 =>
                match decode_uXXXX h1 h2 h3 h4 with
                | None => None
                | Some uni =>
                    if (0xD800 <=? uni) && (uni <=? 0xDBFF) then
                      match r2 with
                      | b :: u :: g1 :: g2 :: g3 :: g4 :: r3 =>
                          if (b =? backslash) && (u =? 0x75) then
                            match decode_uXXXX g1 g2 g3 g4 with
                            | None => None
                            | Some uni2 =>
                                if (0xDC00 <=? uni2) && (uni2 <=? 0xDFFF)
                                then push (0x10000 + (uni - 0xD800) * 0x400
                                           + (uni2 - 0xDC00)) (scanstring r3)
                                else push uni (scanstring r2)
                            end
                          else push uni (scanstring r2)
                      | _ => push uni (scanstring r2)
                      end
                    else push uni (scanstring r2)
                end
            | _ => None
            end
          else match backslash_char e with
               | Some ch => push ch (scanstring r1)
               | None => None
               end
      end
    else if c <? 0x20 then None
    else push c (scanstring r)
end.

Definition digit_cons (c : N) (u : Decimal.uint) : Decimal.uint :=
match c - 0x30 with
| 0 => Decimal.D0 u
| 1 => Decimal.D1 u
| 2 => Decimal.D2 u
| 3 => Decimal.D3 u
| 4 => Decimal.D4 u
| 5 => Decimal.D5 u
| 6 => Decimal.D6 u
| 7 => Decimal.D7 u
| 8 => Decimal.D8 u
| _ => Decimal.D9 u
end.

Fixpoint take_digits (s : pystr) : Decimal.uint * pystr :=
match s with
| [] => (Decimal.Nil, [])
| c :: r =>
    if is_digit c
    then let '(u, rest) := take_digits r in (digit_cons c u, rest)
    else (Decimal.Nil, s)
end.

(** [NUMBER_RE]: an optional minus sign, then either a single zero or a
    non-zero digit followed by digits; neither fraction nor exponent may
    follow. *)
Definition scan_number (s : pystr) : option (Z * pystr) :=
let '(neg, s1) :=
  match s with
  | c :: r => if c =? 0x2D then (true, r) else (false, s)
  | [] => (false, s)
  end in
match s1 with
| [] => None
| c :: r =>
    if negb (is_digit c) then None
    else
      let '(u, rest) :=
        if c =? 0x30 then (Decimal.D0 Decimal.Nil, r) else take_digits s1 in
      match rest with
      | d :: _ =>
          if (d =? 0x2E) || (d =? 0x65) || (d =? 0x45) then None
          else Some (if neg then (- Z.of_N (N.of_uint u))%Z
                     else Z.of_N (N.of_uint u), rest)
      | [] => Some (if neg then (- Z.of_N (N.of_uint u))%Z
                    else Z.of_N (N.of_uint u), rest)
      end
end.

(** [dict(pairs)]: a later pair with a key already present replaces the
    value and keeps the place. *)
Fixpoint dict_set (k : pystr) (v : value) (d : list (pystr * value))
  : list (pystr * value) :=
match d with
| [] => [(k, v)]
| (k', v') :: r =>
    if bool_decide (k' = k) then (k', v) :: r else (k', v') :: dict_set k v r
end.

Definition dict_of_pairs (pairs : list (pystr * value)) : list (pystr * value) :=
fold_left (fun d kv => dict_set kv.1 kv.2 d) pairs [].

(** [scan_once], [JSONArray] and [JSONObject]; [fuel] bounds the number of
    nested calls, and the length of the document is always enough. *)
Fixpoint scan_once (fuel : nat) (s : pystr) {struct fuel}
  : option (value * pystr) :=
match fuel with
| O => None
| S f =>
    match s with
    | [] => None
    | c :: r =>
        if c =? quote then
          '(str, rest) ← scanstring r; Some (VStr str, rest)
        else if c =? 0x7B then
          match skip_ws r with
          | d :: r' =>
              if d =? 0x7D then Some (VDict [], r')
              else if d =? quote then
                '(pairs, rest) ← object_items f r';
                Some (VDict (dict_of_pairs pairs), rest)
              else None
          | [] => None
          end
        else if c =? 0x5B then
          match skip_ws r with
          | d :: r' =>
              if d =? 0x5D then Some (VList [], r')
              else '(vs, rest) ← array_items f (d :: r'); Some (VList vs, rest)
          | [] => None
          end
        else if PyStr.startswith (py "null") s then Some (VNone, drop 4 s)
        else if PyStr.startswith (py "true") s then Some (VBool true, drop 4 s)
        else if PyStr.startswith (py "false") s then Some (VBool false, drop 5 s)
        else '(z, rest) ← scan_number s; Some (VInt z, rest)
    end
end
with array_items (fuel : nat) (s : pystr) {struct fuel}
  : option (list value * pystr) :=
match fuel with
| O => None
| S f =>
    '(v, s1) ← scan_once f s;
    match skip_ws s1 with
    | d :: s2 =>
        if d =? 0x5D then Some ([v], s2)
        else if d =? 0x2C then
          '(vs, rest) ← array_items f (skip_ws s2); Some (v :: vs, rest)
        else None
    | [] => None
    end
end
with object_items (fuel : nat) (s : pystr) {struct fuel}
  : option (list (pystr * value) * pystr) :=
match fuel with
| O => None
| S f =>
    '(key, s1) ← scanstring s;
    match skip_ws s1 with
    | c :: s2 =>
        if c =? 0x3A then
          '(v, s3) ← scan_once f (skip_ws s2);
          match skip_ws s3 with
          | d :: s4 =>
              if d =? 0x7D then Some ([(key, v)], s4)
              else if d =? 0x2C then
                match skip_ws s4 with
                | q :: s5 =>
                    if q =? quote then
                      '(ps, rest) ← object_items f s5;
                      Some ((key, v) :: ps, rest)
                    else None
                | [] => None
                end
              else None
          | [] => None
          end
        else None
    | [] => None
    end
end.

(** [json.loads]: one value, then nothing but whitespace. *)
Definition loads (s : pystr) : option value :=
'(v, rest) ← scan_once (S (length s)) (skip_ws s);
match skip_ws rest with
| [] => Some v
| _ :: _ => None
end.

End Json.

(** The report is written through a text file opened with
    [encoding='utf-8']: a code point is refused when it is a surrogate. *)
Definition utf8_encodable (c : N) : bool :=
(c <? 0xD800) || ((0xDFFF <? c) && (c <? 0x110000)).

Definition set_file (w : World) (path content : pystr) : World :=
{| files := <[path := content]> (files w);
   strerror := strerror w;
   writable := writable w;
   xml_parse := xml_parse w;
   default_headers := default_headers w;
   http_get := http_get w;
   stdout_encodable := stdout_encodable w |}.

(** ** Pipeline: the thread pool *)

Module Pool.

(** A future is named by the rank of its [submit] call.  [work_queue]
    holds the submitted calls no worker has taken yet, [running] the calls
    being executed, [done] the results stored in finished futures,
    [pending] the futures [as_completed] has not yielded yet and [results]
    the list the loop appends to. *)
Record state := {
  work_queue : list (nat * pystr);
  running : list (nat * pystr);
  done : gmap nat (outcome value);
  pending : gset nat;
  results : list value
}.

(** [{ex.submit(fetch_url, session, u, timeout): u for u in urls}]: a
    dictionary keyed by the future, so a repeated URL gets an entry of its
    own. *)
Definition submit_all (urls : list pystr) : list (nat * pystr) :=
imap (fun i u => (i, u)) urls.

Definition futures (urls : list pystr) : gmap nat pystr :=
list_to_map (submit_all urls).

Definition init (urls : list pystr) : state :=
{| work_queue := submit_all urls;
   running := [];
   done := ∅;
   pending := dom (futures urls);
   results := [] |}.

Section Steps.
(** [fetch i u] is the call made by future [i]; [max_workers] bounds the
    number of worker threads. *)
Variable fetch : nat -> pystr -> outcome value.
Variable max_workers : nat.

Inductive step : state -> state -> Prop :=
| step_start st i u q :
    work_queue st = (i, u) :: q ->
    (length (running st) < max_workers)%nat ->
    step st {| work_queue := q;
               running := running st ++ [(i, u)];
               done := done st;
               pending := pending st;
               results := results st |}
| step_finish st i u before after :
    running st = before ++ (i, u) :: after ->
    step st {| work_queue := work_queue st;
               running := before ++ after;
               done := <[i := fetch i u]> (done st);
               pending := pending st;
               results := results st |}
| step_collect st i v :
    i ∈ pending st ->
    done st !! i = Some (Return v) ->
    step st {| work_queue := work_queue st;
               running := running st;
               done := done st;
               pending := pending st ∖ {[i]};
               results := results st ++ [v] |}.

(** [f.result()] re-raises what the call raised. *)
Definition result_raises (st : state) (e : Exception) : Prop :=
exists i, i ∈ pending st /\ done st !! i = Some (Raise e).

(** The loop over [as_completed] is over. *)
Definition collected (st : state) : Prop := pending st = ∅.

End Steps.
End Pool.

(** ** Pipeline and ReportWriter: [run_checker] *)

Section Pipeline.
Context {U : UnicodeData}.

Definition make_report (sitemap : pystr) (urls : list pystr)
  (results : list value) : value :=
VDict [(py "sitemap", VStr sitemap);
       (py "count", VInt (Z.of_nat (length urls)));
       (py "results", VList results)].

(** The call each future makes. *)
Definition task (w : World) (timeout : Z) (i : nat) (u : pystr) : outcome value :=
fetch_url (http_get w i)
  (make_session w default_retries default_backoff default_timeout) u timeout.

(** [run_checker w sitemap output concurrency timeout out w']: the call
    may end with [out] (the report, or an exception) in the world [w']. *)
Inductive run_checker (w : World) (sitemap output : pystr)
  (concurrency timeout : Z) : outcome value -> World -> Prop :=
| run_parse_failed e :
    parse_sitemap w sitemap = Raise e ->
    run_checker w sitemap output concurrency timeout (Raise e) w
| run_no_worker urls :
    parse_sitemap w sitemap = Return urls ->
    (concurrency <= 0)%Z ->
    run_checker w sitemap output concurrency timeout
      (Raise {| exc_class := ValueError;
                exc_str := py "max_workers must be greater than 0" |}) w
| run_task_raised urls st e :
    parse_sitemap w sitemap = Return urls ->
    (0 < concurrency)%Z ->
    rtc (Pool.step (task w timeout) (Z.to_nat concurrency)) (Pool.init urls) st ->
    Pool.result_raises st e ->
    run_checker w sitemap output concurrency timeout (Raise e) w
| run_open_failed urls st e :
    parse_sitemap w sitemap = Return urls ->
    (0 < concurrency)%Z ->
    rtc (Pool.step (task w timeout) (Z.to_nat concurrency)) (Pool.init urls) st ->
    Pool.collected st ->
    open_write w output = Some e ->
    run_checker w sitemap output concurrency timeout (Raise e) w
| run_encode_failed urls st msg partial :
    parse_sitemap w sitemap = Return urls ->
    (0 < concurrency)%Z ->
    rtc (Pool.step (task w timeout) (Z.to_nat concurrency)) (Pool.init urls) st ->
    Pool.collected st ->
    open_write w output = None ->
    forallb utf8_encodable
      (Json.dumps (make_report sitemap urls (Pool.results st))) = false ->
    run_checker w sitemap output concurrency timeout
      (Raise {| exc_class := UnicodeEncodeError; exc_str := msg |})
      (set_file w output partial)
| run_returns urls st :
    parse_sitemap w sitemap = Return urls ->
    (0 < concurrency)%Z ->
    rtc (Pool.step (task w timeout) (Z.to_nat concurrency)) (Pool.init urls) st ->
    Pool.collected st ->
    open_write w output = None ->
    forallb utf8_encodable
      (Json.dumps (make_report sitemap urls (Pool.results st))) = true ->
    run_checker w sitemap output concurrency timeout
      (Return (make_report sitemap urls (Pool.results st)))
      (set_file w output
         (Json.dumps (make_report sitemap urls (Pool.results st)))).

End Pipeline.

(** * Properties *)

(** Worlds and inputs used to run the definitions. *)

Definition refused : nat -> Session -> pystr -> Z -> outcome Response :=
fun _ _ _ _ =>
  Raise {| exc_class := RequestException; exc_str := py "Connection refused" |}.

(** No file at all, and no server. *)
Definition quiet_world : World :=
{| files := ∅;
   strerror := fun _ => py "No such file or directory";
   writable := fun _ => true;
   xml_parse := fun _ => NotWellFormed (py "no element found");
   default_headers := ∅;
   http_get := refused;
   stdout_encodable := utf8_encodable |}.

(** One file, [sitemap.xml], holding the document [doc] whose tree is
    [root]; every path can be written; [get] answers the requests; the
    terminal takes UTF-8. *)
Definition sitemap_world (doc : pystr) (root : ET.Element)
  (get : nat -> Session -> pystr -> Z -> outcome Response) : World :=
{| files := {[ py "sitemap.xml" := doc ]};
   strerror := fun _ => py "No such file or directory";
   writable := fun _ => true;
   xml_parse := fun content =>
     if bool_decide (content = doc) then Tree root
     else NotWellFormed (py "syntax error");
   default_headers := ∅;
   http_get := get;
   stdout_encodable := utf8_encodable |}.

(** The document [<urlset><url><loc>   </loc></url></urlset>]. *)
Definition blank_loc_tree : ET.Element :=
ET.Elem (py "urlset") None
  [ET.Elem (py "url") None [ET.Elem (py "loc") (Some (py "   ")) []]].

Definition blank_loc_world : World :=
sitemap_world (py "<urlset><url><loc>   </loc></url></urlset>")
  blank_loc_tree refused.

Section Properties.
Context {U : UnicodeData}.

(** ** PageScanner *)

(** C3. For every body text, [has_judol] is true exactly when the
    lowercased body contains one of the four keywords "judol", "gacor",
    "togel", "maxwin" as a substring. *)
Theorem has_judol_iff_keyword_substring (text : pystr) :
  Lower.has_judol text = true <->
  PyStr.substring (py "judol") (Lower.lower text)
  \/ PyStr.substring (py "gacor") (Lower.lower text)
  \/ PyStr.substring (py "togel") (Lower.lower text)
  \/ PyStr.substring (py "maxwin") (Lower.lower text).
Proof.
  unfold Lower.has_judol, Lower.keywords. cbn [existsb].
  rewrite orb_false_r, !orb_true_iff, !PyStr.contains_spec. tauto.
Qed.

(** C4. For every body text, [exact_judol] is true exactly when the body,
    with its leading and trailing whitespace removed and then lowercased,
    is the string "judol". *)
Theorem exact_judol_iff_trimmed_lower (text : pystr) :
  Lower.exact_judol text = true <->
  exists core, PyStr.trimmed text core /\ Lower.lower core = py "judol".
Proof.
  unfold Lower.exact_judol. rewrite pystr_eqb_eq. split.
  - intros H. exists (PyStr.strip text). split; [apply PyStr.strip_trimmed | done].
  - intros (core & Ht & Hl). by rewrite <- (PyStr.trimmed_strip _ _ Ht).
Qed.

Lemma has_judol_of_judol (text : pystr) :
  PyStr.substring (py "judol") (Lower.lower text) -> Lower.has_judol text = true.
Proof.
  intros H. unfold Lower.has_judol, Lower.keywords. cbn [existsb].
  apply orb_true_iff. left. by apply PyStr.contains_spec.
Qed.

(** C5. For every body text, [exact_judol] true implies [has_judol] true:
    when the trimmed lowercased body is "judol", the lowercased body
    contains the keyword "judol". *)
Theorem exact_judol_implies_has_judol (text : pystr) :
  Lower.exact_judol text = true -> Lower.has_judol text = true.
Proof.
  intros H. apply has_judol_of_judol.
  unfold Lower.exact_judol in H. apply pystr_eqb_eq in H.
  pose proof (Lower.lower_judol_no_sigma _ H) as Hs.
  destruct (PyStr.strip_trimmed text) as (l & r & Ht & _).
  pose proof (Lower.lower_from_no_sigma [] (PyStr.strip text) [] Hs) as Hcore.
  rewrite app_nil_r in Hcore. simpl in Hcore. rewrite app_nil_r in Hcore.
  fold (Lower.lower (PyStr.strip text)) in Hcore. rewrite H in Hcore.
  unfold Lower.lower. rewrite Ht at 1.
  destruct (Lower.lower_from_app_r [] l (PyStr.strip text ++ r)) as [x ->].
  rewrite Lower.lower_from_no_sigma by done. rewrite <- Hcore.
  eexists x, _. reflexivity.
Qed.

End Properties.

Lemma exact_judol_implies_has_judol_witness :
  @Lower.exact_judol ascii_only (py "  JuDoL ") = true
  /\ @Lower.has_judol ascii_only (py "  JuDoL ") = true.
Proof.
  split; [reflexivity |].
  apply (@exact_judol_implies_has_judol ascii_only (py "  JuDoL ")).
  reflexivity.
Defined.

(** ** SitemapReader *)

(** C6. A [loc] element whose text is only whitespace passes the test on
    [e.text] and is then trimmed to the empty string: on the document
    [<urlset><url><loc>   </loc></url></urlset>] the URL list returned by
    [parse_sitemap] is [['']]. *)
Theorem parse_sitemap_blank_loc_yields_empty_url :
  parse_sitemap blank_loc_world (py "sitemap.xml") = Return [[]].
Proof. vm_compute. reflexivity. Qed.

(** A document that declares an encoding Python has no codec for. *)
Definition klingon_doc : pystr :=
py "<?xml version='1.0' encoding='klingon'?><urlset></urlset>".

Definition klingon_world : World :=
{| files := {[ py "sitemap.xml" := klingon_doc ]};
   strerror := fun _ => py "No such file or directory";
   writable := fun _ => true;
   xml_parse := fun _ => UnknownEncoding (py "klingon");
   default_headers := ∅;
   http_get := refused;
   stdout_encodable := utf8_encodable |}.

(** [open] raises [ValueError] for a path with a NUL character and
    [OSError] for a file it cannot open, and nothing else. *)
Lemma open_read_cases (w : World) (path : pystr) :
  ((0 ∈ path) /\ open_read w path = Raise embedded_null)
  \/ ((0 ∉ path) /\ files w !! path = None
      /\ open_read w path
         = Raise {| exc_class := OSError; exc_str := strerror w path |})
  \/ (exists c, (0 ∉ path) /\ files w !! path = Some c
                /\ open_read w path = Return c).
Proof.
  unfold open_read. destruct (bool_decide_reflect (0 ∈ path)) as [H0|H0].
  - by left.
  - right. destruct (files w !! path) as [c|]; [right; by exists c | by left].
Qed.

(** The body of [parse_sitemap] after [ET.parse] raises nothing. *)
Lemma parse_sitemap_of_ET_parse (w : World) (path : pystr) :
  match ET_parse w path with
  | Return root => exists urls, parse_sitemap w path = Return urls
  | Raise e => parse_sitemap w path = Raise e
  end.
Proof.
  unfold parse_sitemap. destruct (ET_parse w path) as [root|e]; cbn; eauto.
Qed.

(** C7, as stated, fails in two ways.  A sitemap file that cannot be
    opened makes [parse_sitemap] raise the [OSError] of [open], not
    [ParseError]; and a file that can be opened and declares an encoding
    without codec makes it raise [LookupError]: neither [ParseError] nor a
    URL list. *)
Lemma parse_sitemap_failures_other_than_ParseError :
  (files quiet_world !! py "sitemap.xml" = None
   /\ raises (parse_sitemap quiet_world (py "sitemap.xml")) OSError
   /\ ~ raises (parse_sitemap quiet_world (py "sitemap.xml")) ParseError)
  /\ (open_read klingon_world (py "sitemap.xml") = Return klingon_doc
      /\ raises (parse_sitemap klingon_world (py "sitemap.xml")) LookupError
      /\ ~ raises (parse_sitemap klingon_world (py "sitemap.xml")) ParseError
      /\ ~ exists urls,
             parse_sitemap klingon_world (py "sitemap.xml") = Return urls).
Proof.
  split; [split; [reflexivity | split] | split; [reflexivity | split; [|split]]].
  - eexists. split; reflexivity.
  - intros (e & He & Hc). vm_compute in He. injection He as <-. discriminate.
  - eexists. split; reflexivity.
  - intros (e & He & Hc). vm_compute in He. injection He as <-. discriminate.
  - intros (urls & He). vm_compute in He. discriminate.
Qed.

(** C7, amended.  [parse_sitemap] raises [ParseError] exactly when the
    file can be opened and its content is not well-formed markup.  When
    the file cannot be opened it raises the exception of [open] instead,
    an [OSError] or (for a path with a NUL character) a [ValueError]; when
    the document declares an encoding the parser has no single-byte codec
    for, it raises [LookupError] or [ValueError].  In every other case, and
    in no other, it returns a URL list. *)
Theorem parse_sitemap_failure_modes (w : World) (path : pystr) :
  (raises (parse_sitemap w path) ParseError <->
     exists c msg, open_read w path = Return c /\ xml_parse w c = NotWellFormed msg)
  /\ (forall e, open_read w path = Raise e ->
        parse_sitemap w path = Raise e
        /\ (exc_class e = OSError \/ exc_class e = ValueError))
  /\ (forall c name,
        open_read w path = Return c -> xml_parse w c = UnknownEncoding name ->
        parse_sitemap w path
        = Raise {| exc_class := LookupError;
                   exc_str := py "unknown encoding: " ++ name |})
  /\ (forall c,
        open_read w path = Return c -> xml_parse w c = MultiByteEncoding ->
        parse_sitemap w path
        = Raise {| exc_class := ValueError;
                   exc_str := py "multi-byte encodings are not supported" |})
  /\ ((exists urls, parse_sitemap w path = Return urls) <->
        exists c root, open_read w path = Return c /\ xml_parse w c = Tree root).
Proof.
  pose proof (parse_sitemap_of_ET_parse w path) as Hbody.
  unfold raises. unfold ET_parse in Hbody.
  destruct (open_read_cases w path)
    as [(H0 & Ho) | [(H0 & Hf & Ho) | (c & H0 & Hf & Ho)]];
    rewrite Ho in *; cbn in Hbody.
  - rewrite Hbody. split; [|split; [|split; [|split]]].
    + split; [intros (e & [= <-] & ?); done | intros (? & ? & ? & _); done].
    + intros e [= <-]. split; [done | by right].
    + intros c name Hc; done.
    + intros c Hc; done.
    + split; [intros (? & ?); done | intros (? & ? & ? & _); done].
  - rewrite Hbody. split; [|split; [|split; [|split]]].
    + split; [intros (e & [= <-] & ?); done | intros (? & ? & ? & _); done].
    + intros e [= <-]. split; [done | by left].
    + intros c name Hc; done.
    + intros c Hc; done.
    + split; [intros (? & ?); done | intros (? & ? & ? & _); done].
  - split; [|split; [|split; [|split]]].
    + destruct (xml_parse w c) as [root|msg|name|] eqn:Hx; cbn in Hbody.
      * destruct Hbody as [urls ->].
        split; [intros (e & ? & _); done |].
        intros (c' & msg & [= <-] & Hx'). congruence.
      * rewrite Hbody. split; [intros _; eauto | intros _; eexists; split; reflexivity].
      * rewrite Hbody. split; [intros (e & [= <-] & ?); done |].
        intros (c' & msg & [= <-] & Hx'). congruence.
      * rewrite Hbody. split; [intros (e & [= <-] & ?); done |].
        intros (c' & msg & [= <-] & Hx'). congruence.
    + intros e; done.
    + intros c' name [= <-] Hx. by rewrite Hx in Hbody.
    + intros c' [= <-] Hx. by rewrite Hx in Hbody.
    + destruct (xml_parse w c) as [root|msg|name|] eqn:Hx; cbn in Hbody.
      * split; [intros _; eauto | intros _; done].
      * rewrite Hbody. split; [intros (? & ?); done |].
        intros (c' & root & [= <-] & Hx'). congruence.
      * rewrite Hbody. split; [intros (? & ?); done |].
        intros (c' & root & [= <-] & Hx'). congruence.
      * rewrite Hbody. split; [intros (? & ?); done |].
        intros (c' & root & [= <-] & Hx'). congruence.
Qed.

(** What does hold of the returned list: its entries are the trimmed
    texts of the [loc] elements whose text is not empty, in order. *)
Lemma loc_texts_spec (locs : list ET.Element) (u : pystr) :
  u ∈ loc_texts locs <->
  exists e c t, e ∈ locs /\ ET.text e = Some (c :: t) /\ u = PyStr.strip (c :: t).
Proof.
  unfold loc_texts. rewrite list_elem_of_omap. split.
  - intros (e & He & Hu). destruct (ET.text e) as [[|c t]|] eqn:E; try done.
    injection Hu as <-. eauto 6.
  - intros (e & c & t & He & Ht & ->). exists e. by rewrite Ht.
Qed.

(** A sitemap in the sitemaps.org namespace, with indented text. *)
Definition namespaced_world : World :=
sitemap_world
  (py "<urlset xmlns='http://www.sitemaps.org/schemas/sitemap/0.9'>"
   ++ [0x0A] ++ py " <url>" ++ [0x0A] ++ py "  <loc>"
   ++ [0x0A] ++ py "  https://example.org/a " ++ [0x0A]
   ++ py "</loc><lastmod>2024-01-01</lastmod></url>"
   ++ py "<url><loc/><loc xmlns=''>https://example.org/other</loc></url>"
   ++ py "</urlset>")
  (ET.Elem (py "{http://www.sitemaps.org/schemas/sitemap/0.9}urlset")
     (Some [0x0A; 0x20])
     [ET.Elem (py "{http://www.sitemaps.org/schemas/sitemap/0.9}url")
        (Some [0x0A; 0x20; 0x20])
        [ET.Elem (py "{http://www.sitemaps.org/schemas/sitemap/0.9}loc")
           (Some ([0x0A] ++ py "  https://example.org/a " ++ [0x0A])) [];
         ET.Elem (py "{http://www.sitemaps.org/schemas/sitemap/0.9}lastmod")
           (Some (py "2024-01-01")) []];
      ET.Elem (py "{http://www.sitemaps.org/schemas/sitemap/0.9}url") None
        [ET.Elem (py "{http://www.sitemaps.org/schemas/sitemap/0.9}loc") None [];
         ET.Elem (py "loc") (Some (py "https://example.org/other")) []]])
  refused.

Example parse_sitemap_namespaced :
  parse_sitemap namespaced_world (py "sitemap.xml")
  = Return [py "https://example.org/a"].
Proof. vm_compute. reflexivity. Qed.

Section FetcherProperties.
Context {U : UnicodeData}.

(** ** HTTPFetcher *)

Lemma fetch_url_shape
  (get : Session -> pystr -> Z -> outcome Response)
  (session : Session) (url : pystr) (timeout : Z) :
  exists d, fetch_url get session url timeout = Return d /\ is_fetch_result d.
Proof.
  unfold fetch_url, is_fetch_result.
  destruct (get session url timeout) as [r|e]; cbn; [|eauto 10].
  destruct (r_text r) as [t|e]; cbn; eauto 10.
Qed.

(** C2. For every URL and every behaviour of the underlying GET -- a
    response, a response whose text cannot be read, or any raised
    exception -- [fetch_url] returns a dictionary and never raises: a
    failure becomes [{url, ok: false, error: str(e)}]. *)
Theorem fetch_url_never_raises
  (get : Session -> pystr -> Z -> outcome Response)
  (session : Session) (url : pystr) (timeout : Z) :
  exists d, fetch_url get session url timeout = Return d
  /\ match get session url timeout with
     | Raise e => d = failure_dict url (exc_str e)
     | Return r =>
         match r_text r with
         | Raise e => d = failure_dict url (exc_str e)
         | Return t =>
             d = success_dict url (status_code r)
                   (Lower.has_judol (body_text t))
                   (Lower.exact_judol (body_text t))
                   (length (body_text t))
         end
     end.
Proof.
  unfold fetch_url. destruct (get session url timeout) as [r|e]; cbn.
  - destruct (r_text r) as [t|e]; cbn; eexists; split; reflexivity.
  - eexists; split; reflexivity.
Qed.

(** C10. The [timeout] argument of [make_session] does not reach the
    session: two calls that differ only in it build the same session.  The
    timeout of a request is the one [fetch_url] is called with: [fetch_url]
    consults the GET only at its own arguments, and each task of
    [run_checker] passes the [timeout] given to [run_checker]. *)
Theorem make_session_ignores_timeout
  (w : World) (retries : Z) (backoff : Q) (t1 t2 : Z) :
  make_session w retries backoff t1 = make_session w retries backoff t2
  /\ (forall get session url timeout,
        fetch_url get session url timeout
        = fetch_url (fun _ _ _ => get session url timeout) session url timeout)
  /\ (forall timeout i u,
        task w timeout i u
        = fetch_url (http_get w i)
            (make_session w default_retries default_backoff t1) u timeout).
Proof. repeat split. Qed.

End FetcherProperties.

(** ** Pipeline *)

Module PoolFacts.
Import Pool.
Local Open Scope nat_scope.

Lemma submit_all_from (n : nat) (urls : list pystr) :
  (imap (fun i u => (n + i, u)) urls).*1 = seq n (length urls)
  /\ (imap (fun i u => (n + i, u)) urls).*2 = urls.
Proof.
  revert n. induction urls as [|u urls IH]; intros n; [done |].
  rewrite imap_cons. cbn [fmap list_fmap length seq fst snd].
  rewrite Nat.add_0_r.
  destruct (IH (S n)) as [IH1 IH2]. split; f_equal.
  - rewrite <- IH1. f_equal. apply imap_ext. intros i x _. cbn. f_equal. lia.
  - rewrite <- IH2 at 2. f_equal. apply imap_ext. intros i x _. cbn. f_equal. lia.
Qed.

Lemma submit_all_ids (urls : list pystr) :
  (submit_all urls).*1 = seq 0 (length urls).
Proof. apply (submit_all_from 0). Qed.

Lemma submit_all_urls (urls : list pystr) : (submit_all urls).*2 = urls.
Proof. apply (submit_all_from 0). Qed.

Lemma submit_all_NoDup (urls : list pystr) : NoDup (submit_all urls).*1.
Proof. rewrite submit_all_ids. apply NoDup_seq. Qed.

Lemma submit_all_length (urls : list pystr) :
  length (submit_all urls) = length urls.
Proof. unfold submit_all. by rewrite length_imap. Qed.

(** The dictionary of futures has one key per submitted URL. *)
Lemma futures_size (urls : list pystr) : size (futures urls) = length urls.
Proof.
  unfold futures. rewrite map_size_list_to_map by apply submit_all_NoDup.
  apply submit_all_length.
Qed.

Lemma futures_dom (urls : list pystr) (i : nat) :
  i ∈ dom (futures urls) <-> i ∈ (submit_all urls).*1.
Proof. unfold futures. rewrite dom_list_to_map_L. apply elem_of_list_to_set. Qed.

Lemma filter_iff_in {A} (P Q : A -> Prop)
    `{!forall x, Decision (P x), !forall x, Decision (Q x)} (l : list A) :
  (forall x, x ∈ l -> P x <-> Q x) -> filter P l = filter Q l.
Proof.
  induction l as [|a l IH]; intros Hall; [done |].
  assert (filter P l = filter Q l) as E.
  { apply IH. intros x Hx. apply Hall. by apply elem_of_cons; right. }
  assert (P a <-> Q a) as Ha by (apply Hall; apply elem_of_cons; by left).
  destruct (decide (P a)).
  - rewrite !filter_cons_True by tauto. by rewrite E.
  - rewrite !filter_cons_False by tauto. done.
Qed.

Lemma filter_all {A} (P : A -> Prop) `{!forall x, Decision (P x)} (l : list A) :
  (forall x, x ∈ l -> P x) -> filter P l = l.
Proof.
  induction l as [|a l IH]; intros Hall; [done |].
  rewrite filter_cons_True by (apply Hall; apply elem_of_cons; by left).
  f_equal. apply IH. intros x Hx. apply Hall. apply elem_of_cons. by right.
Qed.

Lemma filter_none {A} (P : A -> Prop) `{!forall x, Decision (P x)} (l : list A) :
  (forall x, x ∈ l -> ~ P x) -> filter P l = [].
Proof.
  induction l as [|a l IH]; intros Hall; [done |].
  rewrite filter_cons_False by (apply Hall; apply elem_of_cons; by left).
  apply IH. intros x Hx. apply Hall. apply elem_of_cons. by right.
Qed.

(** Yielding future [i] moves its task among the collected ones. *)
Lemma filter_collect (tasks : list (nat * pystr)) (pend : gset nat) i u :
  NoDup tasks.*1 -> (i, u) ∈ tasks -> i ∈ pend ->
  filter (fun t => t.1 ∉ pend ∖ {[i]}) tasks
  ≡ₚ (i, u) :: filter (fun t => t.1 ∉ pend) tasks.
Proof.
  induction tasks as [|t ts IH]; intros Hnd Hin Hp.
  - by apply elem_of_nil in Hin.
  - rewrite fmap_cons in Hnd. apply NoDup_cons in Hnd as [Hni Hnd].
    apply elem_of_cons in Hin as [<-|Hin].
    + rewrite filter_cons_True by (cbn; set_solver).
      rewrite (filter_cons_False _ (i, u)) by (cbn; set_solver).
      f_equiv. apply reflexive_eq. apply filter_iff_in. intros t Ht.
      assert (t.1 ≠ i) as Hne.
      { intros <-. apply Hni. by apply (list_elem_of_fmap_2 fst) in Ht. }
      set_solver.
    + assert (t.1 ≠ i) as Hne.
      { intros <-. apply Hni. by apply (list_elem_of_fmap_2 fst) in Hin. }
      destruct (decide (t.1 ∈ pend)) as [Ht|Ht].
      * rewrite filter_cons_False by set_solver.
        rewrite (filter_cons_False _ t) by set_solver. by apply IH.
      * rewrite filter_cons_True by set_solver.
        rewrite (filter_cons_True _ t) by set_solver.
        rewrite IH by done. apply Permutation_swap.
Qed.

Section Invariant.
Variable fetch : nat -> pystr -> outcome value.
Variable max_workers : nat.
Variable urls : list pystr.

Abbreviation tasks := (submit_all urls).

Record inv (st : state) : Prop := {
  inv_sub : forall t, t ∈ work_queue st \/ t ∈ running st -> t ∈ tasks;
  inv_where : forall t, t ∈ tasks ->
    t ∈ work_queue st \/ t ∈ running st \/ is_Some (done st !! t.1);
  inv_done : forall i r, done st !! i = Some r ->
    exists u, (i, u) ∈ tasks /\ r = fetch i u;
  inv_pending : forall i, i ∈ pending st -> i ∈ tasks.*1;
  inv_results : exists cl,
    Forall2 (fun t v => fetch t.1 t.2 = Return v) cl (results st)
    /\ cl ≡ₚ filter (fun t => t.1 ∉ pending st) tasks;
  inv_workers : length (running st) <= max_workers
}.

Lemma inv_init : inv (init urls).
Proof.
  split; cbn.
  - intros t [H|H]; [done | by apply elem_of_nil in H].
  - intros t H. by left.
  - intros i r H. by rewrite lookup_empty in H.
  - intros i H. by apply futures_dom.
  - exists []. split; [constructor |].
    rewrite filter_none; [done |]. intros t Ht Hn. apply Hn.
    apply futures_dom. by apply (list_elem_of_fmap_2 fst) in Ht.
  - lia.
Qed.

Lemma task_unique i u u' : (i, u) ∈ tasks -> (i, u') ∈ tasks -> u = u'.
Proof.
  intros H1 H2. pose proof (submit_all_NoDup urls) as Hnd.
  apply list_elem_of_lookup in H1 as [j1 H1].
  apply list_elem_of_lookup in H2 as [j2 H2].
  assert (j1 = j2) as ->.
  { eapply NoDup_lookup; [exact Hnd | |];
      rewrite list_lookup_fmap; [rewrite H1 | rewrite H2]; done. }
  congruence.
Qed.

Lemma inv_step st st' : inv st -> step fetch max_workers st st' -> inv st'.
Proof.
  intros [Hsub Hwhere Hdone Hpend Hres Hwork] Hstep.
  destruct Hstep as [st i u q Hq Hlt | st i u before after Hr | st i v Hi Hd];
    split; cbn.
  - intros t [H|H]; apply Hsub.
    + left. rewrite Hq. apply elem_of_cons. by right.
    + apply elem_of_app in H as [H|H]; [by right |].
      apply list_elem_of_singleton in H as ->. left. rewrite Hq.
      apply elem_of_cons. by left.
  - intros t Ht. destruct (Hwhere t Ht) as [H|[H|H]]; [|by right; left; apply elem_of_app; left|by right; right].
    rewrite Hq in H. apply elem_of_cons in H as [->|H]; [|by left].
    right. left. apply elem_of_app. right. by apply list_elem_of_singleton.
  - done.
  - done.
  - done.
  - rewrite length_app. cbn. lia.
  - intros t [H|H]; apply Hsub; [by left |]. right. rewrite Hr.
    apply elem_of_app in H as [H|H]; apply elem_of_app; [by left |].
    right. apply elem_of_cons. by right.
  - intros t Ht. destruct (Hwhere t Ht) as [H|[H|H]]; [by left | |].
    + rewrite Hr in H. apply elem_of_app in H as [H|H].
      * right. left. apply elem_of_app. by left.
      * apply elem_of_cons in H as [->|H].
        -- right. right. cbn. rewrite lookup_insert_eq. eauto.
        -- right. left. apply elem_of_app. by right.
    + right. right. destruct (decide (i = t.1)) as [->|Hne].
      * rewrite lookup_insert_eq. eauto.
      * by rewrite lookup_insert_ne.
  - intros j r Hj. destruct (decide (i = j)) as [->|Hne].
    + rewrite lookup_insert_eq in Hj. injection Hj as <-. exists u. split; [|done].
      apply Hsub. right. rewrite Hr. apply elem_of_app. right.
      apply elem_of_cons. by left.
    + rewrite lookup_insert_ne in Hj by done. eauto.
  - done.
  - done.
  - rewrite Hr in Hwork. rewrite length_app in *. cbn in Hwork. lia.
  - done.
  - done.
  - done.
  - intros j Hj. apply Hpend. set_solver.
  - destruct Hres as (cl & Hf & Hp).
    destruct (Hdone i _ Hd) as (u & Hu & Hfetch).
    exists (cl ++ [(i, u)]). split.
    + apply Forall2_app; [done |]. constructor; [by cbn | constructor].
    + rewrite filter_collect by (try done; apply submit_all_NoDup).
      rewrite <- Hp. by rewrite Permutation_app_comm.
  - done.
Qed.

Lemma inv_rtc st :
  rtc (step fetch max_workers) (init urls) st -> inv st.
Proof.
  revert st. apply rtc_ind_r; [apply inv_init |].
  intros y z _ Hstep Hy. by eapply inv_step.
Qed.

(** Every step consumes something: no execution is infinite. *)
Definition measure (st : state) : nat :=
2 * length (work_queue st) + length (running st) + size (pending st).

Lemma step_measure st st' :
  step fetch max_workers st st' -> measure st' < measure st.
Proof.
  intros [st0 i u q Hq Hlt | st0 i u before after Hr | st0 i v Hi Hd];
    unfold measure; cbn.
  - rewrite Hq, length_app. cbn. lia.
  - rewrite Hr, !length_app. cbn. lia.
  - assert (size (pending st0) = size (pending st0 ∖ {[i]}) + 1) as E.
    { rewrite (union_difference_L {[i]} (pending st0)) at 1 by set_solver.
      rewrite size_union by set_solver. rewrite size_singleton. lia. }
    lia.
Qed.

(** While a future is pending, the pool or the collecting loop can move,
    provided there is a worker and no call raises. *)
Lemma progress st :
  0 < max_workers ->
  (forall i u, exists v, fetch i u = Return v) ->
  inv st -> pending st ≠ ∅ -> exists st', step fetch max_workers st st'.
Proof.
  intros Hw Hret [Hsub Hwhere Hdone Hpend Hres Hwork] Hne.
  apply set_choose_L in Hne as [i Hi].
  pose proof (Hpend i Hi) as Hid.
  apply list_elem_of_fmap in Hid as ([i' u] & -> & Ht). cbn in Hi.
  destruct (Hwhere _ Ht) as [Hq | [Hr | [r Hd]]].
  - destruct (work_queue st) as [|[j u'] q] eqn:Eq; [by apply elem_of_nil in Hq |].
    destruct (decide (length (running st) < max_workers)) as [Hlt|Hge].
    + eexists. by eapply step_start.
    + destruct (running st) as [|[k u''] r] eqn:Er; [cbn in Hge; lia |].
      eexists. by eapply (step_finish _ _ st k u'' []).
  - apply list_elem_of_split in Hr as (before & after & Hr).
    eexists. by eapply step_finish.
  - cbn in Hd. destruct (Hdone _ _ Hd) as (u' & _ & ->).
    destruct (Hret i' u') as [v Hv]. rewrite Hv in Hd.
    eexists. by eapply step_collect.
Qed.

Lemma completes st :
  0 < max_workers ->
  (forall i u, exists v, fetch i u = Return v) ->
  inv st ->
  exists st', rtc (step fetch max_workers) st st' /\ collected st'.
Proof.
  intros Hw Hret. remember (measure st) as n eqn:En. revert st En.
  induction n as [n IH] using lt_wf_ind. intros st -> Hinv.
  destruct (decide (pending st = ∅)) as [He|Hne].
  - exists st. split; [apply rtc_refl | done].
  - destruct (progress st Hw Hret Hinv Hne) as [st1 Hstep].
    destruct (IH (measure st1) (step_measure _ _ Hstep) st1 eq_refl)
      as (st' & Hrtc & Hc); [by eapply inv_step |].
    exists st'. split; [by eapply rtc_l | done].
Qed.

(** When the loop is over, the results are the outcomes of the submitted
    calls, each exactly once, in some order. *)
Lemma collected_results st :
  inv st -> collected st ->
  Return <$> results st ≡ₚ imap fetch urls
  /\ length (results st) = length urls.
Proof.
  intros [_ _ _ _ (cl & Hf & Hp) _] Hc. unfold collected in Hc.
  rewrite Hc in Hp. rewrite filter_all in Hp by set_solver.
  assert (Return <$> results st = (fun t => fetch t.1 t.2) <$> cl) as E.
  { clear Hp. induction Hf as [|t v cl rs Htv _ IH]; [done |].
    cbn. by rewrite Htv, IH. }
  split.
  - rewrite E, Hp. apply reflexive_eq. unfold submit_all.
    rewrite fmap_imap. by apply imap_ext.
  - apply Forall2_length in Hf. rewrite <- Hf, Hp. apply submit_all_length.
Qed.

End Invariant.
End PoolFacts.

(** A sitemap that lists the same URL twice. *)
Definition twice_world : World :=
sitemap_world
  (py "<urlset><url><loc>http://a/</loc></url><url><loc>http://a/</loc></url></urlset>")
  (ET.Elem (py "urlset") None
     [ET.Elem (py "url") None [ET.Elem (py "loc") (Some (py "http://a/")) []];
      ET.Elem (py "url") None [ET.Elem (py "loc") (Some (py "http://a/")) []]])
  refused.

Section PipelineProperties.
Context {U : UnicodeData}.

(** What C1 says of a call of [run_checker] on a sitemap that yields
    [urls]: the shape of every report returned; that the pool, however far
    it has got, can complete; that each completed pool holds one result per
    URL and makes the call return the report, once the output file is
    opened and takes the text; and the bound on the fetches in progress. *)
Definition one_result_per_url (w : World) (sitemap output : pystr)
  (concurrency timeout : Z) (urls : list pystr) : Prop :=
  let step := Pool.step (task w timeout) (Z.to_nat concurrency) in
  (forall out w',
     run_checker w sitemap output concurrency timeout out w' ->
     match out with
     | Return report =>
         exists results,
           report = VDict [(py "sitemap", VStr sitemap);
                           (py "count", VInt (Z.of_nat (length urls)));
                           (py "results", VList results)]
           /\ length results = length urls
           /\ Return <$> results ≡ₚ imap (task w timeout) urls
     | Raise e =>
         open_write w output = Some e \/ exc_class e = UnicodeEncodeError
     end)
  /\ (forall st, rtc step (Pool.init urls) st ->
        exists st', rtc step st st' /\ Pool.collected st')
  /\ (forall st, rtc step (Pool.init urls) st -> Pool.collected st ->
        length (Pool.results st) = length urls
        /\ Return <$> Pool.results st ≡ₚ imap (task w timeout) urls
        /\ (open_write w output = None ->
            forallb utf8_encodable
              (Json.dumps (make_report sitemap urls (Pool.results st))) = true ->
            run_checker w sitemap output concurrency timeout
              (Return (make_report sitemap urls (Pool.results st)))
              (set_file w output
                 (Json.dumps (make_report sitemap urls (Pool.results st))))))
  /\ (forall st, rtc step (Pool.init urls) st ->
        (length (Pool.running st) <= Z.to_nat concurrency)%nat).

Lemma task_returns (w : World) (timeout : Z) (i : nat) (u : pystr) :
  exists v, task w timeout i u = Return v.
Proof.
  destruct (fetch_url_shape (http_get w i)
              (make_session w default_retries default_backoff default_timeout)
              u timeout) as (d & Hd & _).
  by exists d.
Qed.

(** C1. When the sitemap yields N URLs and the concurrency level is at
    least 1, [run_checker] produces a report with one result per URL.
    Every report returned has [count] N and [results] holding exactly the
    N outcomes of the N submitted fetches, one per listed URL (a repeated
    URL is fetched and reported once per listing), in some order.  The
    pool never gets stuck: from every state it reaches, the remaining
    fetches can be run and collected.  Every completed pool makes the call
    return that report, written to the output file, unless opening the
    output file or encoding the text fails; and a call raises in these two
    cases only.  Never more than [concurrency] fetches are in progress. *)
Theorem run_checker_one_result_per_url (w : World) (sitemap output : pystr)
  (concurrency timeout : Z) (urls : list pystr) :
  parse_sitemap w sitemap = Return urls ->
  (1 <= concurrency)%Z ->
  one_result_per_url w sitemap output concurrency timeout urls.
Proof.
  intros Hparse Hc. unfold one_result_per_url. cbv zeta.
  split; [|split; [|split]].
  - intros out w' Hrun.
    destruct Hrun as [e He | urls' Hp Hle | urls' st e Hp _ Hrtc Hraise
                     | urls' st e Hp _ Hrtc Hcol Hw
                     | urls' st msg partial Hp _ Hrtc Hcol Hw Henc
                     | urls' st Hp _ Hrtc Hcol Hw Henc];
      try (rewrite Hparse in Hp; injection Hp as <-).
    + congruence.
    + lia.
    + apply PoolFacts.inv_rtc in Hrtc. destruct Hraise as (i & _ & Hd).
      destruct (PoolFacts.inv_done _ _ _ _ Hrtc _ _ Hd) as (u & _ & Hu).
      destruct (task_returns w timeout i u) as [v Hv]. congruence.
    + by left.
    + by right.
    + apply PoolFacts.inv_rtc in Hrtc.
      destruct (PoolFacts.collected_results _ _ _ _ Hrtc Hcol) as [Hperm Hlen].
      exists (Pool.results st). done.
  - intros st Hrtc. apply PoolFacts.inv_rtc in Hrtc.
    apply (PoolFacts.completes (task w timeout) (Z.to_nat concurrency) urls st);
      [lia | apply task_returns | done].
  - intros st Hrtc Hcol.
    pose proof (PoolFacts.inv_rtc _ _ _ _ Hrtc) as Hinv.
    destruct (PoolFacts.collected_results _ _ _ _ Hinv Hcol) as [Hperm Hlen].
    split; [done |]. split; [done |].
    intros Hw Henc. apply run_returns; try done. lia.
  - intros st' Hrtc'. apply PoolFacts.inv_rtc in Hrtc'.
    by destruct Hrtc'.
Qed.

End PipelineProperties.

(** On [twice_world], with two workers: both fetches are started, the
    second finishes and is collected first; the call returns the report of
    two results for the URL listed twice. *)
Lemma run_checker_one_result_per_url_witness :
  parse_sitemap twice_world (py "sitemap.xml")
    = Return [py "http://a/"; py "http://a/"]
  /\ (1 <= 2)%Z
  /\ exists w',
       @run_checker ascii_only twice_world (py "sitemap.xml")
         (py "judol_report.json") 2 10
         (Return (make_report (py "sitemap.xml") [py "http://a/"; py "http://a/"]
                    [failure_dict (py "http://a/") (py "Connection refused");
                     failure_dict (py "http://a/") (py "Connection refused")]))
         w'.
Proof.
  assert (parse_sitemap twice_world (py "sitemap.xml")
          = Return [py "http://a/"; py "http://a/"]) as Hp
    by (vm_compute; reflexivity).
  assert (1 <= 2)%Z as Hc by lia.
  split; [exact Hp |]. split; [exact Hc |].
  destruct (@run_checker_one_result_per_url ascii_only twice_world
              (py "sitemap.xml") (py "judol_report.json") 2 10
              [py "http://a/"; py "http://a/"] Hp Hc) as (_ & _ & Hdone & _).
  pose (u := py "http://a/").
  pose (r := failure_dict u (py "Connection refused")).
  pose (fetch := @task ascii_only twice_world 10).
  pose (st := {| Pool.work_queue := [];
                 Pool.running := [];
                 Pool.done := <[0%nat := fetch 0%nat u]>
                                (<[1%nat := fetch 1%nat u]> ∅);
                 Pool.pending := dom (Pool.futures [u; u]) ∖ {[1%nat]} ∖ {[0%nat]};
                 Pool.results := [r; r] |}).
  destruct (Hdone st) as (_ & _ & Hret).
  - eapply rtc_l.
    { eapply (Pool.step_start _ _ _ 0%nat u [(1%nat, u)]); [reflexivity | cbn; lia]. }
    eapply rtc_l.
    { eapply (Pool.step_start _ _ _ 1%nat u []); [reflexivity | cbn; lia]. }
    eapply rtc_l.
    { eapply (Pool.step_finish _ _ _ 1%nat u [(0%nat, u)] []). reflexivity. }
    eapply rtc_l.
    { eapply (Pool.step_finish _ _ _ 0%nat u [] []). reflexivity. }
    eapply rtc_l.
    { eapply (Pool.step_collect _ _ _ 1%nat r).
      - cbn [Pool.pending Pool.init]. apply PoolFacts.futures_dom.
        rewrite PoolFacts.submit_all_ids. cbn [length seq].
        apply elem_of_cons. right. apply elem_of_cons. by left.
      - cbn [Pool.done]. rewrite lookup_insert_ne by done.
        rewrite lookup_insert_eq. reflexivity. }
    eapply rtc_l.
    { eapply (Pool.step_collect _ _ _ 0%nat r).
      - cbn [Pool.pending Pool.init]. apply elem_of_difference. split.
        + apply PoolFacts.futures_dom.
          rewrite PoolFacts.submit_all_ids. cbn [length seq].
          apply elem_of_cons. by left.
        + by intros ?%elem_of_singleton.
      - cbn [Pool.done]. rewrite lookup_insert_eq. reflexivity. }
    apply rtc_refl.
  - unfold Pool.collected, st. cbn [Pool.pending]. apply set_eq. intros i.
    rewrite !elem_of_difference, PoolFacts.futures_dom.
    rewrite PoolFacts.submit_all_ids. cbn [length seq].
    rewrite !elem_of_cons, elem_of_nil. set_solver.
  - eexists. apply Hret; vm_compute; reflexivity.
Defined.

(** ** ReportWriter: reading the report back *)

Module JsonFacts.
Import Json.

Lemma hex_value_digit (n : N) : n < 16 -> hex_value (hex_digit n) = Some n.
Proof.
  intros H.
  assert (n ∈ [0; 1; 2; 3; 4; 5; 6; 7; 8; 9; 10; 11; 12; 13; 14; 15]) as Hn.
  { apply list_elem_of_In. destruct n as [|p]; [by left |].
    do 15 (destruct p as [p|p|]; try lia; cbn; try tauto). }
  repeat (apply elem_of_cons in Hn as [->|Hn]; [reflexivity |]).
  by apply elem_of_nil in Hn.
Qed.

Lemma decode_control (c : N) :
  c < 0x20 ->
  decode_uXXXX 0x30 0x30 (hex_digit (c / 16)) (hex_digit (c mod 16)) = Some c.
Proof.
  intros H. unfold decode_uXXXX. cbn [hex_value N.leb N.compare Pos.compare
    Pos.compare_cont andb mbind option_bind].
  change (hex_value 0x30) with (Some 0). cbn [mbind option_bind].
  assert (c / 16 < 16) as Hq by (apply N.Div0.div_lt_upper_bound; lia).
  assert (c mod 16 < 16) as Hr by (apply N.mod_lt; lia).
  rewrite (hex_value_digit _ Hq), (hex_value_digit _ Hr).
  cbn [mbind option_bind]. f_equal.
  pose proof (N.div_mod c 16). lia.
Qed.

(** The decoder undoes [encode_basestring] on every string. *)
Lemma scanstring_escape (s rest : pystr) :
  scanstring (flat_map escape_char s ++ quote :: rest) = Some (s, rest).
Proof.
  induction s as [|c s IH]; [reflexivity |].
  cbn [flat_map]. rewrite <- app_assoc. unfold escape_char at 1.
  repeat match goal with
  | |- context [if ?a =? ?b then _ else _] =>
      destruct (N.eqb_spec a b) as [->|?]; [cbn; by rewrite IH |]
  end.
  destruct (N.ltb_spec c 0x20) as [Hlt|Hge].
  - cbn [app scanstring N.eqb Pos.eqb quote backslash].
    rewrite decode_control by done.
    assert (((0xD800 <=? c) && (c <=? 0xDBFF)) = false) as ->.
    { apply andb_false_iff. left. apply N.leb_gt. lia. }
    by rewrite IH.
  - cbn [app scanstring].
    destruct (N.eqb_spec c quote); [done |].
    destruct (N.eqb_spec c backslash); [done |].
    destruct (N.ltb_spec c 0x20); [lia |]. by rewrite IH.
Qed.

Lemma skip_ws_stop (c : N) (s : pystr) :
  is_ws c = false -> skip_ws (c :: s) = c :: s.
Proof. intros H. unfold skip_ws. cbn. by rewrite H. Qed.

Lemma skip_ws_spaces (n : nat) (s : pystr) :
  skip_ws (replicate n 0x20 ++ s) = skip_ws s.
Proof. induction n as [|n IH]; [done | apply IH]. Qed.

Lemma skip_ws_newline_indent (level : nat) (s : pystr) :
  skip_ws (newline_indent level ++ s) = skip_ws s.
Proof. unfold newline_indent. cbn -[Nat.mul]. apply skip_ws_spaces. Qed.

(** *** Integers *)

Lemma uint_chars_digits (u : Decimal.uint) :
  Forall (fun c => is_digit c = true) (uint_chars u).
Proof. induction u; cbn; constructor; done. Qed.

Lemma take_digits_uint (u : Decimal.uint) (rest : pystr) :
  match rest with [] => True | c :: _ => is_digit c = false end ->
  take_digits (uint_chars u ++ rest) = (u, rest).
Proof.
  intros H. induction u; cbn [uint_chars app take_digits];
    try (change (is_digit _) with true; cbn match; rewrite IHu; reflexivity).
  destruct rest as [|c r]; [done |]. cbn. by rewrite H.
Qed.

Lemma to_uint_head (p : positive) :
  exists c t, uint_chars (Pos.to_uint p) = c :: t
    /\ is_digit c = true /\ c ≠ 0x30.
Proof.
  pose proof (DecimalPos.Unsigned.to_uint_nonnil p) as Hnil.
  pose proof (DecimalPos.Unsigned.to_uint_nonzero p) as Hnz.
  pose proof (DecimalPos.Unsigned.to_of (Pos.to_uint p)) as Hn.
  rewrite DecimalPos.Unsigned.of_to in Hn. cbn [N.to_uint] in Hn.
  assert (forall d, Pos.to_uint p <> Decimal.D0 d) as H0.
  { intros d E. rewrite E in Hn.
    unfold Decimal.unorm in Hn. rewrite DecimalFacts.nzhead_D0 in Hn.
    destruct (Decimal.nzhead d) eqn:Ed;
      try (by eapply DecimalFacts.nzhead_nonzero; rewrite Ed, <- Hn).
    apply Hnz. rewrite E. by rewrite Hn. }
  destruct (Pos.to_uint p) as [|d|d|d|d|d|d|d|d|d|d]; [done | by destruct (H0 d) | ..];
    cbn; eexists _, _; (split; [reflexivity |]); split; done.
Qed.

Definition follow_ok (rest : pystr) : Prop :=
match rest with
| [] => True
| c :: _ => c = 0x2C \/ c = 0x0A
end.

Lemma scan_number_intstr (z : Z) (rest : pystr) :
  follow_ok rest -> scan_number (intstr z ++ rest) = Some (z, rest).
Proof.
  intros Hf.
  assert (match rest with [] => True | c :: _ => is_digit c = false end) as Hd.
  { destruct rest as [|c r]; [done |]. by destruct Hf as [-> | ->]. }
  assert (forall u v : Z,
    match rest with
    | d :: _ => if (d =? 0x2E) || (d =? 0x65) || (d =? 0x45) then None
                else Some (u, rest)
    | [] => Some (u, rest)
    end = Some (v, rest) <-> u = v) as Hrest.
  { intros u v. destruct rest as [|c r]; [naive_solver |].
    destruct Hf as [-> | ->]; cbn; naive_solver. }
  destruct z as [|p|p].
  - cbn. by apply Hrest.
  - destruct (to_uint_head p) as (c & t & E & Hc & Hn0).
    unfold intstr, scan_number. rewrite E. cbn [app].
    destruct (N.eqb_spec c 0x2D) as [->|_]; [done |].
    rewrite Hc. cbn [negb]. destruct (N.eqb_spec c 0x30) as [->|_]; [done |].
    change (c :: t ++ rest) with ((c :: t) ++ rest). rewrite <- E.
    rewrite take_digits_uint by done. apply Hrest.
    change N.of_uint with Pos.of_uint.
    by rewrite DecimalPos.Unsigned.of_to.
  - destruct (to_uint_head p) as (c & t & E & Hc & Hn0).
    unfold intstr, scan_number. cbn [app N.eqb Pos.eqb]. rewrite E. cbn [app].
    rewrite Hc. cbn [negb]. destruct (N.eqb_spec c 0x30) as [->|_]; [done |].
    change (c :: t ++ rest) with ((c :: t) ++ rest). rewrite <- E.
    rewrite take_digits_uint by done. apply Hrest.
    change N.of_uint with Pos.of_uint.
    by rewrite DecimalPos.Unsigned.of_to.
Qed.

(** *** Structure of an encoded value *)

Fixpoint encode_items (level : nat) (l : list value) : pystr :=
match l with
| [] => []
| y :: l' => item_separator (S level) ++ encode (S level) y ++ encode_items level l'
end.

Fixpoint encode_pairs (level : nat) (d : list (pystr * value)) : pystr :=
match d with
| [] => []
| (k, y) :: d' =>
    item_separator (S level) ++ encode_basestring k ++ key_separator
    ++ encode (S level) y ++ encode_pairs level d'
end.

Lemma encode_VList_cons level x r :
  encode level (VList (x :: r))
  = [0x5B] ++ newline_indent (S level) ++ encode (S level) x
    ++ encode_items level r ++ newline_indent level ++ [0x5D].
Proof.
  cbn [encode]. do 3 f_equal. f_equal.
  induction r as [|y r IH]; [done |]. cbn [encode_items]. by rewrite IH.
Qed.

Lemma encode_VDict_cons level k x r :
  encode level (VDict ((k, x) :: r))
  = [0x7B] ++ newline_indent (S level) ++ encode_basestring k ++ key_separator
    ++ encode (S level) x ++ encode_pairs level r
    ++ newline_indent level ++ [0x7D].
Proof.
  cbn [encode]. do 5 f_equal. f_equal.
  induction r as [|[k' y] r IH]; [done |]. cbn [encode_pairs]. by rewrite IH.
Qed.

(** Induction on values, with the hypothesis available for every element
    of a list and every value of a dictionary. *)
Lemma value_nested_ind (P : value -> Prop) :
  P VNone -> (forall b, P (VBool b)) -> (forall z, P (VInt z)) ->
  (forall s, P (VStr s)) ->
  (forall l, Forall P l -> P (VList l)) ->
  (forall d, Forall (fun kv => P kv.2) d -> P (VDict d)) ->
  forall v, P v.
Proof.
  intros HN HB HI HS HL HD.
  fix IH 1. intros [| b | z | s | l | d];
    [exact HN | apply HB | apply HI | apply HS | |].
  - apply HL. induction l as [|x l IHl]; constructor; [apply IH | apply IHl].
  - apply HD. induction d as [|[k x] d IHd]; constructor; [apply IH | apply IHd].
Qed.

(** A Python dictionary has no repeated key. *)
Fixpoint keys_distinct (v : value) : Prop :=
match v with
| VList l =>
    (fix all (l : list value) : Prop :=
       match l with
       | [] => True
       | x :: r => keys_distinct x /\ all r
       end) l
| VDict d =>
    NoDup d.*1 /\
    (fix all (d : list (pystr * value)) : Prop :=
       match d with
       | [] => True
       | (_, x) :: r => keys_distinct x /\ all r
       end) d
| _ => True
end.

Lemma keys_distinct_list l :
  keys_distinct (VList l) <-> Forall keys_distinct l.
Proof.
  cbn [keys_distinct]. induction l as [|x l IH].
  - split; [constructor | done].
  - rewrite Forall_cons, <- IH. done.
Qed.

Lemma keys_distinct_dict d :
  keys_distinct (VDict d)
  <-> NoDup d.*1 /\ Forall (fun kv => keys_distinct kv.2) d.
Proof.
  cbn [keys_distinct]. apply and_iff_compat_l.
  induction d as [|[k x] d IH].
  - split; [constructor | done].
  - rewrite Forall_cons, <- IH. done.
Qed.

(** Nested calls the decoder needs for a value. *)
Fixpoint vsize (v : value) : nat :=
match v with
| VList l =>
    S ((fix sum (l : list value) : nat :=
          match l with
          | [] => O
          | x :: r => S (vsize x + sum r)
          end) l)
| VDict d =>
    S ((fix sum (d : list (pystr * value)) : nat :=
          match d with
          | [] => O
          | (_, x) :: r => S (vsize x + sum r)
          end) d)
| _ => 1%nat
end.

Definition lsize (l : list value) : nat :=
foldr (fun x n => S (vsize x + n)) O l.

Definition dsize (d : list (pystr * value)) : nat :=
foldr (fun kv n => S (vsize kv.2 + n)) O d.

Lemma vsize_list l : vsize (VList l) = S (lsize l).
Proof.
  cbn [vsize]. reflexivity.
Qed.

Lemma vsize_dict d : vsize (VDict d) = S (dsize d).
Proof.
  cbn [vsize]. f_equal. induction d as [|[k x] d IH]; [done |]. cbn. by rewrite IH.
Qed.

Lemma intstr_head z :
  exists c t, intstr z = c :: t /\ (is_digit c = true \/ c = 0x2D).
Proof.
  destruct z as [|p|p]; try (eexists _, _; split; [reflexivity | by auto]).
  destruct (to_uint_head p) as (c & t & E & Hc & _). exists c, t. auto.
Qed.

Lemma digit_range c : is_digit c = true -> 0x30 <= c <= 0x39.
Proof.
  unfold is_digit. intros [H1%N.leb_le H2%N.leb_le]%andb_true_iff. done.
Qed.

(** An encoded value starts with a character that is neither whitespace
    nor a closing bracket. *)
Lemma encode_head level v :
  exists c t, encode level v = c :: t /\ is_ws c = false /\ c ≠ 0x5D.
Proof.
  destruct v as [| [|] | z | s | [|x l] | [|[k x] d]];
    try (eexists _, _; split; [reflexivity | done]).
  destruct (intstr_head z) as (c & t & E & Hc). exists c, t. split; [done |].
  destruct Hc as [Hc%digit_range | ->]; [|done].
  unfold is_ws. split; [|lia].
  repeat (apply orb_false_iff; split); apply N.eqb_neq; lia.
Qed.

Lemma skip_ws_encode level v rest :
  skip_ws (encode level v ++ rest) = encode level v ++ rest.
Proof.
  destruct (encode_head level v) as (c & t & -> & Hc & _).
  by apply skip_ws_stop.
Qed.

Lemma dict_set_fresh k v d :
  k ∉ d.*1 -> dict_set k v d = d ++ [(k, v)].
Proof.
  induction d as [|[k' v'] d IH]; intros Hk; [done |].
  rewrite fmap_cons in Hk. apply not_elem_of_cons in Hk as [Hne Hk].
  cbn. rewrite bool_decide_eq_false_2 by done. by rewrite IH.
Qed.

Lemma dict_of_pairs_distinct pairs :
  NoDup pairs.*1 -> dict_of_pairs pairs = pairs.
Proof.
  unfold dict_of_pairs.
  assert (forall acc, NoDup (acc ++ pairs).*1 ->
    fold_left (fun d kv => dict_set kv.1 kv.2 d) pairs acc = acc ++ pairs) as H.
  { induction pairs as [|[k v] pairs IH]; intros acc Hnd.
    - by rewrite app_nil_r.
    - cbn. rewrite dict_set_fresh.
      + rewrite IH; rewrite <- app_assoc; done.
      + rewrite fmap_app in Hnd. apply NoDup_app in Hnd as (_ & Hd & _).
        intros Hk. apply (Hd k Hk). cbn. apply elem_of_cons. by left. }
  intros Hnd. by apply (H []).
Qed.

(** *** Decoding an encoded value *)

Definition roundtrips (v : value) : Prop :=
forall fuel level rest,
  keys_distinct v -> (vsize v <= fuel)%nat -> follow_ok rest ->
  scan_once fuel (encode level v ++ rest) = Some (v, rest).

Lemma follow_items level l rest :
  follow_ok (encode_items level l ++ newline_indent level ++ rest).
Proof. destruct l; cbn; auto. Qed.

Lemma follow_pairs level d rest :
  follow_ok (encode_pairs level d ++ newline_indent level ++ rest).
Proof. destruct d as [|[k x] d]; cbn; auto. Qed.

Lemma array_items_encode l :
  Forall roundtrips l ->
  forall x fuel level rest,
    roundtrips x -> keys_distinct x -> Forall keys_distinct l ->
    (lsize (x :: l) <= fuel)%nat ->
    array_items fuel
      (encode (S level) x ++ encode_items level l
       ++ newline_indent level ++ 0x5D :: rest)
    = Some (x :: l, rest).
Proof.
  induction 1 as [|y l Hy _ IH]; intros x fuel level rest Hx Kx Kl Hfuel;
    (destruct fuel as [|f]; [cbn in Hfuel; lia |]); cbn [array_items].
  - rewrite Hx; [| done | cbn in Hfuel; lia | apply (follow_items level [])].
    cbn [mbind option_bind encode_items app].
    rewrite skip_ws_newline_indent. reflexivity.
  - rewrite Hx; [| done | cbn in Hfuel; lia | apply (follow_items level (y :: l))].
    cbn [mbind option_bind encode_items item_separator app].
    rewrite <- !app_assoc.
    rewrite (skip_ws_stop 0x2C) by done. cbn [N.eqb Pos.eqb].
    rewrite skip_ws_newline_indent, skip_ws_encode.
    apply Forall_cons in Kl as [Ky Kl].
    rewrite IH; [done | done | done | done | cbn in *; lia].
Qed.

Lemma object_items_encode d :
  Forall (fun kv => roundtrips kv.2) d ->
  forall k x fuel level rest,
    roundtrips x -> keys_distinct x ->
    Forall (fun kv => keys_distinct kv.2) d ->
    (dsize ((k, x) :: d) <= fuel)%nat ->
    object_items fuel
      (flat_map escape_char k ++ quote :: key_separator
       ++ encode (S level) x ++ encode_pairs level d
       ++ newline_indent level ++ 0x7D :: rest)
    = Some ((k, x) :: d, rest).
Proof.
  induction 1 as [|[k' y] d Hy _ IH]; intros k x fuel level rest Hx Kx Kd Hfuel;
    (destruct fuel as [|f]; [cbn in Hfuel; lia |]); cbn [object_items];
    rewrite scanstring_escape; cbn [mbind option_bind key_separator app];
    rewrite (skip_ws_stop 0x3A) by done; cbn [N.eqb Pos.eqb];
    change (skip_ws (0x20 :: ?s)) with (skip_ws s);
    rewrite skip_ws_encode.
  - rewrite Hx; [| done | cbn in Hfuel; lia | apply (follow_pairs level [])].
    cbn [mbind option_bind encode_pairs app].
    rewrite skip_ws_newline_indent. reflexivity.
  - rewrite Hx;
      [| done | cbn in Hfuel; lia | apply (follow_pairs level ((k', y) :: d))].
    cbn [mbind option_bind encode_pairs item_separator encode_basestring app].
    rewrite <- !app_assoc. cbn [app].
    rewrite (skip_ws_stop 0x2C) by done. cbn [N.eqb Pos.eqb].
    rewrite skip_ws_newline_indent.
    rewrite (skip_ws_stop quote) by done. rewrite N.eqb_refl.
    apply Forall_cons in Kd as [Ky Kd].
    repeat (rewrite <- app_assoc; cbn [app]).
    rewrite IH; [done | done | done | done | cbn in *; lia].
Qed.

Lemma scan_once_number c t f :
  is_digit c = true \/ c = 0x2D ->
  scan_once (S f) (c :: t)
  = '(z, rest) ← scan_number (c :: t); Some (VInt z, rest).
Proof.
  intros Hc.
  assert (c ≠ quote /\ c ≠ 0x7B /\ c ≠ 0x5B /\ c ≠ 0x6E /\ c ≠ 0x74 /\ c ≠ 0x66)
    as (H1 & H2 & H3 & H4 & H5 & H6).
  { destruct Hc as [Hc%digit_range | ->]; unfold quote; repeat split; lia. }
  cbn [scan_once].
  rewrite (proj2 (N.eqb_neq c quote)), (proj2 (N.eqb_neq c 0x7B)),
    (proj2 (N.eqb_neq c 0x5B)) by done.
  change (py "null") with [0x6E; 0x75; 0x6C; 0x6C].
  change (py "true") with [0x74; 0x72; 0x75; 0x65].
  change (py "false") with [0x66; 0x61; 0x6C; 0x73; 0x65].
  cbn [PyStr.startswith].
  rewrite (proj2 (N.eqb_neq 0x6E c)), (proj2 (N.eqb_neq 0x74 c)),
    (proj2 (N.eqb_neq 0x66 c)) by done.
  reflexivity.
Qed.

(** Every value the report can hold is read back unchanged. *)
Lemma scan_once_encode v : roundtrips v.
Proof.
  induction v as [| b | z | s | l IHl | d IHd] using value_nested_ind;
    intros fuel level rest Kv Hfuel Hrest;
    (destruct fuel as [|f]; [cbn in Hfuel; lia |]).
  - reflexivity.
  - destruct b; reflexivity.
  - destruct (intstr_head z) as (c & t & E & Hc). cbn [encode].
    rewrite E. cbn [app]. rewrite scan_once_number by done.
    change (c :: t ++ rest) with ((c :: t) ++ rest). rewrite <- E.
    by rewrite scan_number_intstr.
  - cbn [encode encode_basestring app scan_once]. rewrite N.eqb_refl.
    rewrite <- app_assoc. cbn [app]. by rewrite scanstring_escape.
  - destruct l as [|x l]; [reflexivity |].
    rewrite encode_VList_cons. rewrite vsize_list in Hfuel.
    apply keys_distinct_list in Kv. apply Forall_cons in Kv as [Kx Kl].
    apply Forall_cons in IHl as [Hx Hl].
    cbn [app scan_once N.eqb Pos.eqb quote].
    rewrite <- !app_assoc. rewrite skip_ws_newline_indent, skip_ws_encode.
    destruct (encode_head (S level) x) as (c & t & E & _ & Hc).
    rewrite E. cbn [app]. rewrite (proj2 (N.eqb_neq c 0x5D)) by done.
    change (c :: t ++ ?r) with ((c :: t) ++ r). rewrite <- E.
    cbn [app]. rewrite array_items_encode; [done | done | done | done | done | lia].
  - destruct d as [|[k x] d]; [reflexivity |].
    rewrite encode_VDict_cons. rewrite vsize_dict in Hfuel.
    apply keys_distinct_dict in Kv as [Knd Kv].
    apply Forall_cons in Kv as [Kx Kd]. apply Forall_cons in IHd as [Hx Hd].
    pose proof (object_items_encode d Hd k x f level rest Hx Kx Kd) as Ho.
    unfold encode_basestring, quote in *.
    repeat (rewrite <- app_assoc; cbn [app]).
    cbn [scan_once N.eqb Pos.eqb].
    rewrite skip_ws_newline_indent.
    rewrite (skip_ws_stop 0x22) by done. cbn [N.eqb Pos.eqb].
    rewrite Ho by lia.
    cbn [mbind option_bind]. by rewrite dict_of_pairs_distinct.
Qed.

(** *** The length of the document is enough fuel *)

Lemma encode_nonempty level v : (1 <= length (encode level v))%nat.
Proof. destruct (encode_head level v) as (c & t & -> & _). cbn. lia. Qed.

Lemma vsize_le_length v : forall level, (vsize v <= length (encode level v))%nat.
Proof.
  induction v as [| b | z | s | l IHl | d IHd] using value_nested_ind;
    intros level; try apply encode_nonempty.
  - destruct l as [|x l]; [cbn; lia |].
    rewrite encode_VList_cons, vsize_list. apply Forall_cons in IHl as [Hx Hl].
    assert (lsize l <= length (encode_items level l))%nat as Hitems.
    { induction Hl as [|y l Hy _ IH]; [done |]. cbn [lsize foldr encode_items].
      rewrite !length_app. pose proof (Hy (S level)). cbn [item_separator length].
      fold (lsize l). lia. }
    cbn [lsize foldr]. fold (lsize l). rewrite !length_app. cbn [length].
    pose proof (Hx (S level)). lia.
  - destruct d as [|[k x] d]; [cbn; lia |].
    rewrite encode_VDict_cons, vsize_dict. apply Forall_cons in IHd as [Hx Hd].
    assert (dsize d <= length (encode_pairs level d))%nat as Hpairs.
    { induction Hd as [|[k' y] d Hy _ IH]; [done |]. cbn [dsize foldr encode_pairs].
      rewrite !length_app. pose proof (Hy (S level)). cbn [item_separator length].
      fold (dsize d). cbn [snd] in *. lia. }
    cbn [dsize foldr snd]. fold (dsize d). rewrite !length_app. cbn [length].
    pose proof (Hx (S level)). cbn [snd] in *. lia.
Qed.

(** [json.loads(json.dumps(v, indent=2, ensure_ascii=False)) == v] *)
Lemma loads_dumps v : keys_distinct v -> loads (dumps v) = Some v.
Proof.
  intros Kv. unfold loads, dumps.
  rewrite <- (app_nil_r (encode 0 v)) at 2. rewrite skip_ws_encode.
  rewrite scan_once_encode; [done | done | | done].
  pose proof (vsize_le_length v 0). lia.
Qed.

(** Characters from U+0080 on are written as they are. *)
Lemma encode_non_ascii (s : pystr) (level : nat) :
  Forall (fun c => 0x80 <= c) s ->
  encode level (VStr s) = [quote] ++ s ++ [quote].
Proof.
  intros Hs. cbn [encode]. unfold encode_basestring. do 2 f_equal.
  induction Hs as [|c s Hc _ IH]; [done |]. cbn [flat_map]. rewrite IH.
  unfold escape_char, quote, backslash.
  repeat match goal with
  | |- context [if ?a =? ?b then _ else _] =>
      destruct (N.eqb_spec a b) as [?|?]; [lia |]
  end.
  destruct (N.ltb_spec c 0x20); [lia | done].
Qed.

(** *** Text outside ASCII *)

(** The strings of a value, dictionary keys included, in the order in
    which they are written. *)
Fixpoint strings_of (v : value) : list pystr :=
match v with
| VStr s => [s]
| VList l =>
    (fix all (l : list value) : list pystr :=
       match l with
       | [] => []
       | x :: r => strings_of x ++ all r
       end) l
| VDict d =>
    (fix all (d : list (pystr * value)) : list pystr :=
       match d with
       | [] => []
       | (k, x) :: r => k :: strings_of x ++ all r
       end) d
| _ => []
end.

(** The characters of a text that are outside ASCII, in order. *)
Definition non_ascii (s : pystr) : pystr := filter (fun c => 0x80 <= c) s.

Lemma non_ascii_app (a b : pystr) : non_ascii (a ++ b) = non_ascii a ++ non_ascii b.
Proof. apply filter_app. Qed.

Lemma non_ascii_none (s : pystr) :
  Forall (fun c => c < 0x80) s -> non_ascii s = [].
Proof.
  unfold non_ascii. induction 1 as [|c s Hc _ IH]; [done |].
  rewrite filter_cons, IH. case_decide; [lia | done].
Qed.

Lemma hex_digit_ascii (n : N) : n < 16 -> hex_digit n < 0x80.
Proof. unfold hex_digit. intros H. destruct (N.ltb_spec n 10); lia. Qed.

(** An escape sequence is made of ASCII characters, and only characters
    below U+0020, the quote and the backslash are escaped. *)
Lemma escape_char_cases (c : N) :
  (escape_char c = [c] /\ 0x20 <= c /\ c <> quote /\ c <> backslash)
  \/ (Forall (fun x => x < 0x80) (escape_char c)
      /\ (c < 0x20 \/ c = quote \/ c = backslash)).
Proof.
  unfold escape_char, quote, backslash.
  repeat match goal with
  | |- context [if ?a =? ?b then _ else _] =>
      destruct (N.eqb_spec a b) as [->|?];
        [right; split; [repeat constructor | lia] |]
  end.
  destruct (N.ltb_spec c 0x20) as [Hlt|Hge].
  - right. split; [|lia].
    repeat constructor; apply hex_digit_ascii.
    + apply N.Div0.div_lt_upper_bound. lia.
    + apply N.mod_lt. lia.
  - left. repeat split; try done.
Qed.

Lemma non_ascii_escape (s : pystr) :
  non_ascii (flat_map escape_char s) = non_ascii s.
Proof.
  induction s as [|c s IH]; [done |].
  cbn [flat_map]. rewrite non_ascii_app, IH.
  change (c :: s) with ([c] ++ s). rewrite (non_ascii_app [c]). f_equal.
  destruct (escape_char_cases c) as [(-> & _) | (Hasc & Hc)]; [done |].
  rewrite (non_ascii_none _ Hasc). symmetry. apply non_ascii_none.
  repeat constructor. unfold quote, backslash in Hc. lia.
Qed.

Lemma non_ascii_basestring (s : pystr) :
  non_ascii (encode_basestring s) = non_ascii s.
Proof.
  unfold encode_basestring. rewrite !non_ascii_app, non_ascii_escape.
  change (non_ascii [quote]) with (@nil N). by rewrite app_nil_r.
Qed.

Lemma non_ascii_intstr (z : Z) : non_ascii (intstr z) = [].
Proof.
  apply non_ascii_none.
  assert (forall u, Forall (fun c => c < 0x80) (uint_chars u)) as Hu.
  { intros u. eapply Forall_impl; [apply uint_chars_digits |].
    intros c Hc%digit_range. cbn beta. lia. }
  destruct z as [|p|p]; cbn [intstr]; [repeat constructor | apply Hu |].
  constructor; [lia | apply Hu].
Qed.

Lemma non_ascii_newline_indent (level : nat) : non_ascii (newline_indent level) = [].
Proof.
  apply non_ascii_none. unfold newline_indent. constructor; [lia |].
  apply Forall_replicate. lia.
Qed.

Lemma non_ascii_item_separator (level : nat) :
  non_ascii (item_separator level) = [].
Proof.
  unfold item_separator. change (0x2C :: newline_indent level)
    with ([0x2C] ++ newline_indent level).
  by rewrite non_ascii_app, non_ascii_newline_indent.
Qed.

(** [json.dump] with [ensure_ascii=False] escapes no character outside
    ASCII and adds none: the characters outside ASCII of the text written
    are those of the strings of the value, in order. *)
Lemma non_ascii_encode (v : value) :
  forall level, non_ascii (encode level v) = non_ascii (concat (strings_of v)).
Proof.
  pattern v. apply value_nested_ind; clear v.
  - done.
  - intros [|] level; done.
  - intros z level. apply non_ascii_intstr.
  - intros s level. cbn [encode strings_of concat]. rewrite app_nil_r.
    apply non_ascii_basestring.
  - intros [|x r] Hall level; [done |].
    apply Forall_cons in Hall as [Hx Hr].
    rewrite encode_VList_cons, !non_ascii_app, non_ascii_newline_indent, Hx.
    change (strings_of (VList (x :: r))) with (strings_of x ++ strings_of (VList r)).
    rewrite concat_app, non_ascii_app.
    change (non_ascii [0x5B]) with (@nil N).
    rewrite non_ascii_newline_indent.
    change (non_ascii [0x5D]) with (@nil N). rewrite !app_nil_r. cbn [app].
    f_equal. clear Hx x.
    induction Hr as [|y r Hy _ IH]; [done |].
    cbn [encode_items]. rewrite !non_ascii_app, non_ascii_item_separator, Hy, IH.
    change (strings_of (VList (y :: r))) with (strings_of y ++ strings_of (VList r)).
    by rewrite concat_app, non_ascii_app.
  - intros [|[k x] r] Hall level; [done |].
    apply Forall_cons in Hall as [Hx Hr]. cbn [snd] in Hx.
    rewrite encode_VDict_cons, !non_ascii_app, non_ascii_newline_indent,
      non_ascii_basestring, Hx.
    change (strings_of (VDict ((k, x) :: r)))
      with ([k] ++ strings_of x ++ strings_of (VDict r)).
    rewrite !concat_app, !non_ascii_app.
    change (non_ascii [0x7B]) with (@nil N).
    change (non_ascii key_separator) with (@nil N).
    rewrite non_ascii_newline_indent.
    change (non_ascii [0x7D]) with (@nil N). rewrite !app_nil_r. cbn [app].
    change (concat [k]) with (k ++ []). rewrite app_nil_r.
    do 2 f_equal. clear Hx x k.
    induction Hr as [|[k y] r Hy _ IH]; [done |]. cbn [snd] in Hy.
    cbn [encode_pairs].
    rewrite !non_ascii_app, non_ascii_item_separator, non_ascii_basestring, Hy, IH.
    change (strings_of (VDict ((k, y) :: r)))
      with ([k] ++ strings_of y ++ strings_of (VDict r)).
    rewrite !concat_app, !non_ascii_app.
    change (non_ascii key_separator) with (@nil N). cbn [app].
    change (concat [k]) with (k ++ []). by rewrite app_nil_r.
Qed.

End JsonFacts.

(** A sitemap with one URL, outside ASCII, whose page has been replaced. *)
Definition defaced_url : pystr := py "http://caf" ++ [0xE9] ++ py ".example/".

Definition defaced_world : World :=
sitemap_world
  (py "<urlset><url><loc>" ++ defaced_url ++ py "</loc></url></urlset>")
  (ET.Elem (py "urlset") None
     [ET.Elem (py "url") None [ET.Elem (py "loc") (Some defaced_url) []]])
  (fun _ _ _ _ =>
     Return {| status_code := 200; r_text := Return (Some (py " JUDOL ")) |}).

Section ReportProperties.
Context {U : UnicodeData}.

Lemma keys_distinct_fetch_result v :
  is_fetch_result v -> JsonFacts.keys_distinct v.
Proof.
  intros [(url & status & has & exact & len & ->) | (url & error & ->)];
    (split; [apply (bool_decide_unpack _); vm_compute; exact I | cbn; tauto]).
Qed.

Lemma keys_distinct_report sitemap count results :
  Forall is_fetch_result results ->
  JsonFacts.keys_distinct
    (VDict [(py "sitemap", VStr sitemap); (py "count", VInt count);
            (py "results", VList results)]).
Proof.
  intros H. apply JsonFacts.keys_distinct_dict. split.
  - apply (bool_decide_unpack _). vm_compute. exact I.
  - repeat constructor. cbn [snd]. apply JsonFacts.keys_distinct_list.
    eapply Forall_impl; [exact H | apply keys_distinct_fetch_result].
Qed.

Lemma task_is_fetch_result w timeout i u v :
  task w timeout i u = Return v -> is_fetch_result v.
Proof.
  unfold task. intros Hv.
  destruct (fetch_url_shape (http_get w i)
              (make_session w default_retries default_backoff default_timeout)
              u timeout) as (d & Hd & Hshape).
  rewrite Hd in Hv. by injection Hv as <-.
Qed.

Lemma pool_results_are_fetch_results w timeout workers urls st :
  rtc (Pool.step (task w timeout) workers) (Pool.init urls) st ->
  Forall is_fetch_result (Pool.results st).
Proof.
  intros Hrtc. apply PoolFacts.inv_rtc in Hrtc.
  destruct (PoolFacts.inv_results _ _ _ _ Hrtc) as (cl & Hf & _).
  induction Hf as [|t v cl rs Htv _ IH]; constructor; [|done].
  by eapply task_is_fetch_result.
Qed.

(** C8. When [run_checker] returns a report, the output file holds a
    document that [json.load] reads back as that very report: the fields
    [sitemap], [count] and [results], and in every result the fields of a
    success [{url, ok, status_code, has_judol, exact_judol, length}] or of
    a failure [{url, ok, error}].  Text outside ASCII is written as it is:
    the characters outside ASCII found in the file are those of the
    strings of the report, in order, none escaped and none added.  Both
    facts hold of every report built from results of these two shapes; and
    in any string, among any other characters, a character from U+0080 on
    is written as itself. *)
Theorem written_report_reads_back (w : World) (sitemap output : pystr)
  (concurrency timeout : Z) (report : value) (w' : World) :
  run_checker w sitemap output concurrency timeout (Return report) w' ->
  (exists text,
     files w' !! output = Some text
     /\ Json.loads text = Some report
     /\ JsonFacts.non_ascii text
        = JsonFacts.non_ascii (concat (JsonFacts.strings_of report)))
  /\ (exists count results,
        report = VDict [(py "sitemap", VStr sitemap); (py "count", VInt count);
                        (py "results", VList results)]
        /\ Forall is_fetch_result results)
  /\ (forall sitemap' count results,
        Forall is_fetch_result results ->
        let r := VDict [(py "sitemap", VStr sitemap'); (py "count", VInt count);
                        (py "results", VList results)] in
        Json.loads (Json.dumps r) = Some r
        /\ JsonFacts.non_ascii (Json.dumps r)
           = JsonFacts.non_ascii (concat (JsonFacts.strings_of r)))
  /\ (forall pre c post level,
        0x80 <= c ->
        Json.encode level (VStr (pre ++ c :: post))
        = [Json.quote] ++ flat_map Json.escape_char pre ++ [c]
          ++ flat_map Json.escape_char post ++ [Json.quote]).
Proof.
  intros Hrun.
  assert (forall sitemap' count results,
    Forall is_fetch_result results ->
    Json.loads (Json.dumps
      (VDict [(py "sitemap", VStr sitemap'); (py "count", VInt count);
              (py "results", VList results)]))
    = Some (VDict [(py "sitemap", VStr sitemap'); (py "count", VInt count);
                   (py "results", VList results)])) as Hgen.
  { intros s' c rs Hrs. apply JsonFacts.loads_dumps.
    by apply keys_distinct_report. }
  inversion Hrun as [| | | | | urls st Hp Hc Hrtc Hcol Hw Henc Hout Hw'].
  pose proof (pool_results_are_fetch_results _ _ _ _ _ Hrtc) as Hres.
  split; [|split; [|split]].
  - exists (Json.dumps (make_report sitemap urls (Pool.results st))).
    split; [cbn [files set_file]; apply lookup_insert_eq |].
    split; [by apply Hgen | apply (JsonFacts.non_ascii_encode _ 0)].
  - eexists _, _. split; [reflexivity | done].
  - intros s' c rs Hrs r.
    split; [by apply Hgen | apply (JsonFacts.non_ascii_encode _ 0)].
  - intros pre c post level Hc80. cbn [Json.encode]. unfold Json.encode_basestring.
    rewrite flat_map_app. cbn [flat_map].
    destruct (JsonFacts.escape_char_cases c) as [(-> & _) | (_ & Hlow)].
    + by rewrite <- !app_assoc.
    + unfold Json.quote, Json.backslash in Hlow. lia.
Qed.

End ReportProperties.

(** A complete run on [defaced_world]: the single task is started,
    finishes and is collected; the report is written, and the file holds
    the one character outside ASCII of the URL. *)
Lemma written_report_reads_back_witness :
  exists report w',
    @run_checker ascii_only defaced_world (py "sitemap.xml")
      (py "judol_report.json") 4 10 (Return report) w'
    /\ (exists text, files w' !! py "judol_report.json" = Some text
                     /\ Json.loads text = Some report
                     /\ JsonFacts.non_ascii text = [0xE9]).
Proof.
  pose (st := {| Pool.work_queue := [];
                 Pool.running := [];
                 Pool.done := <[0%nat := @task ascii_only defaced_world 10 0 defaced_url]> ∅;
                 Pool.pending := dom (Pool.futures [defaced_url]) ∖ {[0%nat]};
                 Pool.results :=
                   [success_dict defaced_url 200 true true 7] |}).
  assert (@run_checker ascii_only defaced_world (py "sitemap.xml")
            (py "judol_report.json") 4 10
            (Return (make_report (py "sitemap.xml") [defaced_url] (Pool.results st)))
            (set_file defaced_world (py "judol_report.json")
               (Json.dumps (make_report (py "sitemap.xml") [defaced_url]
                              (Pool.results st))))) as Hrun.
  { apply run_returns.
    - vm_compute. reflexivity.
    - lia.
    - eapply rtc_l.
      { eapply (Pool.step_start _ _ _ 0%nat defaced_url []); [reflexivity | cbn; lia]. }
      eapply rtc_l.
      { eapply (Pool.step_finish _ _ _ 0%nat defaced_url [] []). reflexivity. }
      eapply rtc_l.
      { eapply (Pool.step_collect _ _ _ 0%nat (success_dict defaced_url 200 true true 7)).
        - cbn [Pool.pending Pool.init]. apply PoolFacts.futures_dom.
          rewrite PoolFacts.submit_all_ids. cbn [length seq].
          apply elem_of_cons. by left.
        - cbn [Pool.done]. rewrite lookup_insert_eq. reflexivity. }
      apply rtc_refl.
    - unfold Pool.collected, st. cbn [Pool.pending]. apply set_eq. intros i.
      rewrite elem_of_difference, PoolFacts.futures_dom.
      rewrite PoolFacts.submit_all_ids. cbn [length seq].
      rewrite list_elem_of_singleton. set_solver.
    - reflexivity.
    - vm_compute. reflexivity. }
  eexists _, _. split; [exact Hrun |].
  destruct (@written_report_reads_back ascii_only _ _ _ _ _ _ _ Hrun)
    as ((text & Hfile & Hload & Hkept) & _).
  exists text. split; [exact Hfile |]. split; [exact Hload |].
  rewrite Hkept. vm_compute. reflexivity.
Defined.

(** * Further properties of the script *)

(** ** SitemapReader: where the URLs come from *)

Module SitemapFacts.

(** The namespace [parse_sitemap] reads off the root tag, and the elements
    it then selects. *)
Definition detected_ns (root : ET.Element) : pystr :=
if PyStr.startswith (py "{") (ET.tag root)
then PyStr.strip_chars (py "{")
       (default [] (head (PyStr.split_char 0x7D (ET.tag root))))
else [].

Definition sitemap_locs (root : ET.Element) : list ET.Element :=
match detected_ns root with
| _ :: _ => ET.findall (py ".//{" ++ detected_ns root ++ py "}loc") root
| [] => ET.findall (py ".//loc") root
end.

Lemma parse_sitemap_unfold (w : World) (path : pystr) :
  parse_sitemap w path
  = (root ← ET_parse w path; mret (loc_texts (sitemap_locs root))).
Proof.
  unfold parse_sitemap, sitemap_locs, detected_ns.
  by destruct (ET_parse w path) as [root|e].
Qed.

(** The same document with every element put in the namespace [ns]. *)
Fixpoint qualify (ns : pystr) (e : ET.Element) : ET.Element :=
match e with
| ET.Elem t x cs => ET.Elem (py "{" ++ ns ++ py "}" ++ t) x (map (qualify ns) cs)
end.

Lemma Element_nested_ind (P : ET.Element -> Prop) :
  (forall t x cs, Forall P cs -> P (ET.Elem t x cs)) -> forall e, P e.
Proof.
  intros H. fix IH 1. intros [t x cs]. apply H.
  induction cs as [|c cs IHcs]; constructor; [apply IH | apply IHcs].
Qed.

Lemma iter_unfold (e : ET.Element) :
  ET.iter e = e :: concat (map ET.iter (ET.children e)).
Proof.
  destruct e as [t x cs]. cbn [ET.iter ET.children]. f_equal.
  induction cs as [|c cs IH]; [done |]. cbn [map concat]. by rewrite IH.
Qed.

Lemma iter_qualify (ns : pystr) (e : ET.Element) :
  ET.iter (qualify ns e) = map (qualify ns) (ET.iter e).
Proof.
  induction e as [t x cs IH] using Element_nested_ind.
  rewrite (iter_unfold (ET.Elem t x cs)). cbn [qualify].
  rewrite iter_unfold. cbn [ET.children map]. f_equal.
  induction IH as [|c cs Hc _ IHcs]; [done |].
  cbn [map concat]. by rewrite map_app, Hc, IHcs.
Qed.

Lemma split_char_head (sep : N) (a b : pystr) :
  sep ∉ a -> head (PyStr.split_char sep (a ++ sep :: b)) = Some a.
Proof.
  induction a as [|c a IH]; intros Ha.
  - cbn. by rewrite N.eqb_refl.
  - apply not_elem_of_cons in Ha as [Hc Ha]. cbn [app PyStr.split_char].
    rewrite (proj2 (N.eqb_neq c sep)) by done.
    specialize (IH Ha). destruct (PyStr.split_char sep (a ++ sep :: b)); [done |].
    cbn in *. congruence.
Qed.

Lemma strip_by_one_leading (p : N -> bool) (x : N) (s : pystr) :
  p x = true -> s ≠ [] -> Forall (fun c => p c = false) s ->
  PyStr.strip_by p (x :: s) = s.
Proof.
  intros Hx Hne Hs. unfold PyStr.strip_by. cbn [PyStr.lstrip_by]. rewrite Hx.
  destruct s as [|c t]; [done |].
  rewrite PyStr.lstrip_by_stop by (by apply Forall_cons in Hs as [? _]).
  destruct (exists_last (l:=c :: t)) as (t' & c' & E); [done |].
  rewrite E in *. apply PyStr.rstrip_by_stop.
  apply Forall_app in Hs as [_ Hs]. by apply Forall_cons in Hs as [? _].
Qed.

Lemma loc_texts_qualify (ns : pystr) (l : list ET.Element) :
  loc_texts (map (qualify ns) l) = loc_texts l.
Proof.
  unfold loc_texts. induction l as [|[t x cs] l IH]; [done |].
  cbn [map omap list_omap qualify ET.text]. by rewrite IH.
Qed.

Lemma filter_map_qualify (ns name : pystr) (l : list ET.Element) :
  filter (fun e => ET.tag e = py "{" ++ ns ++ py "}" ++ name) (map (qualify ns) l)
  = map (qualify ns) (filter (fun e => ET.tag e = name) l).
Proof.
  induction l as [|[t x cs] l IH]; [done |]. cbn [map qualify].
  rewrite !filter_cons. cbn [ET.tag]. rewrite IH.
  destruct (decide (t = name)) as [->|Hne].
  - by rewrite decide_True.
  - rewrite decide_False; [done |]. intros E. apply Hne.
    by repeat (apply app_inv_head in E).
Qed.

End SitemapFacts.

(** X1. A sitemap whose elements all sit in one namespace (free of braces)
    yields the same URL list as the same document without namespace. *)
Theorem parse_sitemap_namespace_irrelevant
  (w1 w2 : World) (p1 p2 ns : pystr) (root : ET.Element) :
  ns ≠ [] -> 0x7B ∉ ns -> 0x7D ∉ ns ->
  PyStr.startswith (py "{") (ET.tag root) = false ->
  ET_parse w1 p1 = Return root ->
  ET_parse w2 p2 = Return (SitemapFacts.qualify ns root) ->
  parse_sitemap w2 p2 = parse_sitemap w1 p1.
Proof.
  intros Hne Hopen Hclose Hplain H1 H2.
  rewrite !SitemapFacts.parse_sitemap_unfold, H1, H2. cbn. f_equal.
  assert (SitemapFacts.detected_ns root = []) as Hns1
    by (unfold SitemapFacts.detected_ns; by rewrite Hplain).
  assert (SitemapFacts.detected_ns (SitemapFacts.qualify ns root) = ns) as Hns2.
  { unfold SitemapFacts.detected_ns. destruct root as [t x cs]. cbn [SitemapFacts.qualify ET.tag].
    change (py "{" ++ ns ++ py "}" ++ t) with (0x7B :: ns ++ 0x7D :: t).
    cbn [PyStr.startswith]. change (py "{") with [0x7B]. cbn [PyStr.startswith N.eqb Pos.eqb andb].
    change (0x7B :: ns ++ 0x7D :: t) with ((0x7B :: ns) ++ 0x7D :: t).
    rewrite SitemapFacts.split_char_head.
    - cbn [default]. unfold PyStr.strip_chars.
      apply SitemapFacts.strip_by_one_leading; [done | done |].
      apply Forall_forall. intros c Hc. apply bool_decide_eq_false.
      intros ->%list_elem_of_singleton. done.
    - apply not_elem_of_cons. split; [done | done]. }
  unfold SitemapFacts.sitemap_locs. rewrite Hns1, Hns2.
  destruct ns as [|n0 ns']; [done |].
  unfold ET.findall.
  change (PyStr.startswith (py ".//") (py ".//{" ++ (n0 :: ns') ++ py "}loc")) with true.
  change (PyStr.startswith (py ".//") (py ".//loc")) with true. cbn match.
  change (drop 3 (py ".//{" ++ (n0 :: ns') ++ py "}loc"))
    with (py "{" ++ (n0 :: ns') ++ py "}" ++ py "loc").
  change (drop 3 (py ".//loc")) with (py "loc").
  rewrite SitemapFacts.iter_qualify.
  assert (forall l : list ET.Element,
            tail (map (SitemapFacts.qualify (n0 :: ns')) l)
            = map (SitemapFacts.qualify (n0 :: ns')) (tail l)) as Htail
    by (by intros []).
  rewrite Htail, SitemapFacts.filter_map_qualify.
  apply SitemapFacts.loc_texts_qualify.
Qed.

(** The sitemap of [twice_world] in the sitemaps.org namespace. *)
Definition twice_world_ns : World :=
sitemap_world
  (py "<urlset xmlns='http://www.sitemaps.org/schemas/sitemap/0.9'><url><loc>http://a/</loc></url><url><loc>http://a/</loc></url></urlset>")
  (SitemapFacts.qualify (py "http://www.sitemaps.org/schemas/sitemap/0.9")
     (ET.Elem (py "urlset") None
        [ET.Elem (py "url") None [ET.Elem (py "loc") (Some (py "http://a/")) []];
         ET.Elem (py "url") None [ET.Elem (py "loc") (Some (py "http://a/")) []]]))
  refused.

Lemma parse_sitemap_namespace_irrelevant_witness :
  parse_sitemap twice_world_ns (py "sitemap.xml")
  = parse_sitemap twice_world (py "sitemap.xml").
Proof.
  apply (parse_sitemap_namespace_irrelevant twice_world twice_world_ns
           (py "sitemap.xml") (py "sitemap.xml")
           (py "http://www.sitemaps.org/schemas/sitemap/0.9")
           (ET.Elem (py "urlset") None
              [ET.Elem (py "url") None [ET.Elem (py "loc") (Some (py "http://a/")) []];
               ET.Elem (py "url") None [ET.Elem (py "loc") (Some (py "http://a/")) []]])).
  - discriminate.
  - apply (bool_decide_unpack _). vm_compute. exact I.
  - apply (bool_decide_unpack _). vm_compute. exact I.
  - reflexivity.
  - vm_compute. reflexivity.
  - vm_compute. reflexivity.
Defined.

Lemma strip_idempotent (s : pystr) : PyStr.strip (PyStr.strip s) = PyStr.strip s.
Proof.
  symmetry. apply PyStr.trimmed_strip.
  destruct (PyStr.strip_trimmed s) as (l & r & _ & _ & _ & Hh & Ht).
  exists [], []. rewrite app_nil_r. repeat split; try done; constructor.
Qed.

(** X2. Every URL [parse_sitemap] returns is already trimmed, and is the
    trimmed non-empty text of an element below the root whose tag ends in
    [loc]; the root's own text is never returned. *)
Theorem parse_sitemap_urls_from_descendants
  (w : World) (path : pystr) (urls : list pystr) (u : pystr) :
  parse_sitemap w path = Return urls -> u ∈ urls ->
  PyStr.strip u = u
  /\ exists root e c t pre,
       ET_parse w path = Return root
       /\ e ∈ tail (ET.iter root)
       /\ ET.tag e = pre ++ py "loc"
       /\ ET.text e = Some (c :: t)
       /\ u = PyStr.strip (c :: t).
Proof.
  rewrite SitemapFacts.parse_sitemap_unfold.
  destruct (ET_parse w path) as [root|e0] eqn:Hroot; [|done].
  cbn. intros [= <-] Hu.
  apply loc_texts_spec in Hu as (e & c & t & He & Ht & ->).
  split; [apply strip_idempotent |].
  exists root, e, c, t.
  unfold SitemapFacts.sitemap_locs, ET.findall in He.
  destruct (SitemapFacts.detected_ns root) as [|n0 ns].
  - change (PyStr.startswith (py ".//") (py ".//loc")) with true in He.
    cbn match in He. apply list_elem_of_filter in He as [Htag He].
    exists []. by repeat split.
  - change (PyStr.startswith (py ".//") (py ".//{" ++ (n0 :: ns) ++ py "}loc"))
      with true in He.
    cbn match in He. apply list_elem_of_filter in He as [Htag He].
    exists (py "{" ++ (n0 :: ns) ++ py "}"). repeat split; try done.
    rewrite Htag. change (drop 3 (py ".//{" ++ (n0 :: ns) ++ py "}loc"))
      with (py "{" ++ (n0 :: ns) ++ py "}loc").
    by rewrite <- !app_assoc.
Qed.

Lemma parse_sitemap_urls_from_descendants_witness :
  parse_sitemap namespaced_world (py "sitemap.xml")
    = Return [py "https://example.org/a"]
  /\ py "https://example.org/a" ∈ [py "https://example.org/a"]
  /\ PyStr.strip (py "https://example.org/a") = py "https://example.org/a".
Proof.
  split; [vm_compute; reflexivity |]. split; [apply elem_of_cons; by left |].
  apply (parse_sitemap_urls_from_descendants namespaced_world (py "sitemap.xml")
           [py "https://example.org/a"] (py "https://example.org/a")).
  - vm_compute. reflexivity.
  - apply elem_of_cons. by left.
Defined.

(** ** PageScanner: what is detected *)

(** [K] spells [k] with some of its letters in upper case. *)
Definition ascii_spelling (K k : pystr) : Prop :=
Forall2 (fun C c => (0x61 <= c <= 0x7A) /\ ((C = c) \/ (C + 0x20 = c))) K k.

Section ScannerFacts.
Context {U : UnicodeData}.

Lemma ascii_spelling_lower (K k : pystr) :
  ascii_spelling K k ->
  flat_map Lower.lower_char K = k /\ (Lower.capital_sigma ∉ K)
  /\ Forall (fun C => PyStr.isspace C = false) K.
Proof.
  induction 1 as [|C c K k (Hc & HC) _ (IH1 & IH2 & IH3)].
  - repeat split; [apply not_elem_of_nil | constructor].
  - assert (Lower.lower_char C = [c] /\ C ≠ Lower.capital_sigma
            /\ PyStr.isspace C = false) as (E1 & E2 & E3).
    { unfold Lower.lower_char, Lower.capital_sigma, PyStr.isspace.
      destruct HC as [-> | <-].
      - destruct (N.ltb_spec c 0x80); [|lia].
        destruct (N.leb_spec 0x41 c), (N.leb_spec c 0x5A); cbn; try lia;
          repeat split; try lia;
          repeat (apply orb_false_iff; split);
          try (apply andb_false_iff; first [left; apply N.leb_gt; lia
                                           | right; apply N.leb_gt; lia]);
          apply N.eqb_neq; lia.
      - destruct (N.ltb_spec C 0x80); [|lia].
        destruct (N.leb_spec 0x41 C), (N.leb_spec C 0x5A); cbn; try lia;
          repeat split; try lia;
          repeat (apply orb_false_iff; split);
          try (apply andb_false_iff; first [left; apply N.leb_gt; lia
                                           | right; apply N.leb_gt; lia]);
          apply N.eqb_neq; lia. }
    repeat split.
    + cbn [flat_map]. by rewrite E1, IH1.
    + apply not_elem_of_cons. split; [congruence | done].
    + by constructor.
Qed.

(** X3. A keyword spelled in any mix of upper and lower case is detected
    wherever it stands in the body. *)
Theorem has_judol_detects_any_spelling (pre K post k : pystr) :
  k ∈ Lower.keywords -> ascii_spelling K k ->
  Lower.has_judol (pre ++ K ++ post) = true.
Proof.
  intros Hk HK. destruct (ascii_spelling_lower K k HK) as (Hlow & Hsig & _).
  unfold Lower.has_judol. apply existsb_exists. exists k.
  split; [by apply list_elem_of_In |].
  apply PyStr.contains_spec. unfold Lower.lower.
  destruct (Lower.lower_from_app_r [] pre (K ++ post)) as [x ->].
  rewrite Lower.lower_from_no_sigma by done. rewrite Hlow.
  eexists x, _. reflexivity.
Qed.

(** X4. A body that is a spelling of "judol" in any mix of upper and lower
    case, with nothing but whitespace around it, is an exact match. *)
Theorem exact_judol_accepts_padded_spelling (ws1 K ws2 : pystr) :
  Forall (fun c => PyStr.isspace c = true) ws1 ->
  Forall (fun c => PyStr.isspace c = true) ws2 ->
  ascii_spelling K (py "judol") ->
  Lower.exact_judol (ws1 ++ K ++ ws2) = true.
Proof.
  intros H1 H2 HK. destruct (ascii_spelling_lower K _ HK) as (Hlow & Hsig & Hns).
  unfold Lower.exact_judol. apply pystr_eqb_eq.
  assert (PyStr.strip (ws1 ++ K ++ ws2) = K) as ->.
  { symmetry. apply PyStr.trimmed_strip. exists ws1, ws2. repeat split; try done.
    - intros c t ->. by apply Forall_cons in Hns as [? _].
    - intros t c ->. apply Forall_app in Hns as [_ Hns].
      by apply Forall_cons in Hns as [? _]. }
  pose proof (Lower.lower_from_no_sigma [] K [] Hsig) as E.
  rewrite app_nil_r in E. cbn [Lower.lower_from] in E. rewrite app_nil_r in E.
  unfold Lower.lower. by rewrite E.
Qed.

(** X5. A response without body ([r.text] is [None] or empty) is reported
    as a success with length 0 and neither flag set, whatever its status. *)
Theorem fetch_url_empty_body
  (get : Session -> pystr -> Z -> outcome Response)
  (session : Session) (url : pystr) (timeout : Z) (r : Response) :
  get session url timeout = Return r ->
  r_text r = Return None \/ r_text r = Return (Some []) ->
  fetch_url get session url timeout
  = Return (success_dict url (status_code r) false false 0).
Proof.
  intros Hr Ht. unfold fetch_url. rewrite Hr. cbn.
  by destruct Ht as [-> | ->].
Qed.

End ScannerFacts.

Lemma has_judol_detects_any_spelling_witness :
  py "gacor" ∈ @Lower.keywords
  /\ ascii_spelling (py "GaCoR") (py "gacor")
  /\ @Lower.has_judol ascii_only (py "<p>slot " ++ py "GaCoR" ++ py " 2024</p>") = true.
Proof.
  assert (ascii_spelling (py "GaCoR") (py "gacor")) as HK.
  { repeat constructor; cbn; lia. }
  assert (py "gacor" ∈ @Lower.keywords) as Hk.
  { apply list_elem_of_In. cbn. tauto. }
  split; [exact Hk |]. split; [exact HK |].
  apply (@has_judol_detects_any_spelling ascii_only (py "<p>slot ")
           (py "GaCoR") (py " 2024</p>") (py "gacor") Hk HK).
Defined.

Lemma exact_judol_accepts_padded_spelling_witness :
  @Lower.exact_judol ascii_only ([0x0A; 0x20] ++ py "JUDOL" ++ [0x0D; 0x0A]) = true.
Proof.
  apply (@exact_judol_accepts_padded_spelling ascii_only
           [0x0A; 0x20] (py "JUDOL") [0x0D; 0x0A]).
  - repeat constructor.
  - repeat constructor.
  - repeat constructor; cbn; lia.
Defined.

Lemma fetch_url_empty_body_witness :
  @fetch_url ascii_only
    (fun _ _ _ => Return {| status_code := 204; r_text := Return None |})
    {| adapters := []; headers := ∅ |} (py "http://a/") 10
  = Return (success_dict (py "http://a/") 204 false false 0).
Proof.
  apply (@fetch_url_empty_body ascii_only
           (fun _ _ _ => Return {| status_code := 204; r_text := Return None |})
           {| adapters := []; headers := ∅ |} (py "http://a/") 10
           {| status_code := 204; r_text := Return None |}).
  - reflexivity.
  - by left.
Defined.

(** ** Pipeline: edge cases of [run_checker] *)

(** [r['url']] of a result *)
Definition result_url (r : value) : option pystr :=
match r with
| VDict ((k, VStr u) :: _) => if bool_decide (k = py "url") then Some u else None
| _ => None
end.

(** An empty sitemap. *)
Definition empty_world : World :=
sitemap_world (py "<urlset></urlset>") (ET.Elem (py "urlset") None []) refused.

Section PipelineEdges.
Context {U : UnicodeData}.

(** X6. With a concurrency level of zero or less, [run_checker] on a
    readable sitemap raises [ValueError] when it builds the pool: no report
    is returned and no file is written. *)
Theorem run_checker_needs_a_worker (w : World) (sitemap output : pystr)
  (concurrency timeout : Z) (urls : list pystr) (out : outcome value) (w' : World) :
  parse_sitemap w sitemap = Return urls ->
  (concurrency <= 0)%Z ->
  run_checker w sitemap output concurrency timeout out w' ->
  raises out ValueError /\ w' = w.
Proof.
  intros Hp Hc Hrun.
  destruct Hrun as [e He | urls' _ _ | urls' st e _ H _ _ | urls' st e _ H _ _ _
                   | urls' st msg partial _ H _ _ _ _ | urls' st _ H _ _ _ _];
    try lia.
  - congruence.
  - split; [|done]. eexists. split; reflexivity.
Qed.

(** X7. When the sitemap cannot be read or parsed, [run_checker] raises
    that very exception and leaves every file as it was. *)
Theorem run_checker_propagates_parse_failure (w : World) (sitemap output : pystr)
  (concurrency timeout : Z) (e : Exception) (out : outcome value) (w' : World) :
  parse_sitemap w sitemap = Raise e ->
  run_checker w sitemap output concurrency timeout out w' ->
  out = Raise e /\ w' = w.
Proof.
  intros Hp Hrun.
  destruct Hrun as [e' He | urls' H _ | urls' st e' H _ _ _ | urls' st e' H _ _ _ _
                   | urls' st msg partial H _ _ _ _ _ | urls' st H _ _ _ _ _];
    try congruence.
  split; [congruence | done].
Qed.

(** X8. Whatever the outcome, [run_checker] touches no file but the
    output file. *)
Theorem run_checker_writes_only_output (w : World) (sitemap output : pystr)
  (concurrency timeout : Z) (out : outcome value) (w' : World) (p : pystr) :
  run_checker w sitemap output concurrency timeout out w' ->
  p ≠ output ->
  files w' !! p = files w !! p.
Proof.
  intros Hrun Hne. destruct Hrun; try done; cbn; by rewrite lookup_insert_ne.
Qed.

Lemma fetch_url_result_url get session url timeout d :
  fetch_url get session url timeout = Return d -> result_url d = Some url.
Proof.
  unfold fetch_url. destruct (get session url timeout) as [r|e]; cbn.
  - destruct (r_text r) as [t|e]; cbn; by intros [= <-].
  - by intros [= <-].
Qed.

Lemma result_urls_of_tasks w timeout (cl : list (nat * pystr)) (rs : list value) :
  Forall2 (fun t v => task w timeout t.1 t.2 = Return v) cl rs ->
  result_url <$> rs = (fun t => Some t.2) <$> cl.
Proof.
  induction 1 as [|t v cl rs Htv _ IH]; [done |].
  cbn. rewrite IH. f_equal. by eapply fetch_url_result_url.
Qed.

(** X9. In a returned report the [url] fields of the results are the URLs
    of the sitemap, each as often as the sitemap lists it, in some order. *)
Theorem run_checker_reports_every_url (w : World) (sitemap output : pystr)
  (concurrency timeout : Z) (urls : list pystr) (report : value) (w' : World) :
  parse_sitemap w sitemap = Return urls ->
  run_checker w sitemap output concurrency timeout (Return report) w' ->
  exists results,
    report = make_report sitemap urls results
    /\ result_url <$> results ≡ₚ Some <$> urls.
Proof.
  intros Hp Hrun.
  inversion Hrun as [| | | | | urls' st Hp' Hc Hrtc Hcol Hw Henc Hout Hw'].
  rewrite Hp in Hp'. injection Hp' as <-.
  exists (Pool.results st). split; [done |].
  apply PoolFacts.inv_rtc in Hrtc.
  destruct (PoolFacts.inv_results _ _ _ _ Hrtc) as (cl & Hf & Hperm).
  unfold Pool.collected in Hcol. rewrite Hcol in Hperm.
  rewrite PoolFacts.filter_all in Hperm by set_solver.
  rewrite (result_urls_of_tasks _ _ _ _ Hf), Hperm. apply reflexive_eq.
  rewrite <- (PoolFacts.submit_all_urls urls) at 2.
  by rewrite <- list_fmap_compose.
Qed.

(** X10. A sitemap without URL is no error: a run that returns gives the
    report [{sitemap, count: 0, results: []}] and writes it with the
    two-space indentation, the empty list as [[]]. *)
Theorem run_checker_empty_sitemap (w : World) (sitemap output : pystr)
  (concurrency timeout : Z) (report : value) (w' : World) :
  parse_sitemap w sitemap = Return [] ->
  run_checker w sitemap output concurrency timeout (Return report) w' ->
  report = VDict [(py "sitemap", VStr sitemap); (py "count", VInt 0);
                  (py "results", VList [])]
  /\ files w' !! output
     = Some ([0x7B; 0x0A] ++ py "  " ++ Json.encode_basestring (py "sitemap")
             ++ py ": " ++ Json.encode_basestring sitemap ++ [0x2C; 0x0A]
             ++ py "  " ++ Json.encode_basestring (py "count") ++ py ": 0"
             ++ [0x2C; 0x0A]
             ++ py "  " ++ Json.encode_basestring (py "results") ++ py ": []"
             ++ [0x0A; 0x7D]).
Proof.
  intros Hp Hrun.
  inversion Hrun as [| | | | | urls' st Hp' Hc Hrtc Hcol Hw Henc Hout Hw'].
  rewrite Hp in Hp'. injection Hp' as <-.
  apply PoolFacts.inv_rtc in Hrtc.
  destruct (PoolFacts.collected_results _ _ _ _ Hrtc Hcol) as [_ Hlen].
  destruct (Pool.results st) as [|r rs]; [|done].
  split; [done |]. cbn [files set_file]. rewrite lookup_insert_eq.
  reflexivity.
Qed.

End PipelineEdges.

(** Complete runs used to exercise the properties. *)

Lemma empty_world_run :
  @run_checker ascii_only empty_world (py "sitemap.xml") (py "judol_report.json")
    10 10
    (Return (make_report (py "sitemap.xml") [] []))
    (set_file empty_world (py "judol_report.json")
       (Json.dumps (make_report (py "sitemap.xml") [] []))).
Proof.
  apply (@run_returns ascii_only empty_world (py "sitemap.xml")
           (py "judol_report.json") 10 10 [] (Pool.init [])).
  - vm_compute. reflexivity.
  - lia.
  - apply rtc_refl.
  - unfold Pool.collected, Pool.init, Pool.futures. cbn. apply dom_empty_L.
  - reflexivity.
  - vm_compute. reflexivity.
Qed.

Lemma defaced_world_run :
  @run_checker ascii_only defaced_world (py "sitemap.xml") (py "judol_report.json")
    4 10
    (Return (make_report (py "sitemap.xml") [defaced_url]
               [success_dict defaced_url 200 true true 7]))
    (set_file defaced_world (py "judol_report.json")
       (Json.dumps (make_report (py "sitemap.xml") [defaced_url]
                      [success_dict defaced_url 200 true true 7]))).
Proof.
  pose (st := {| Pool.work_queue := [];
                 Pool.running := [];
                 Pool.done := <[0%nat := @task ascii_only defaced_world 10 0 defaced_url]> ∅;
                 Pool.pending := dom (Pool.futures [defaced_url]) ∖ {[0%nat]};
                 Pool.results := [success_dict defaced_url 200 true true 7] |}).
  apply (@run_returns ascii_only defaced_world (py "sitemap.xml")
           (py "judol_report.json") 4 10 [defaced_url] st).
  - vm_compute. reflexivity.
  - lia.
  - eapply rtc_l.
    { eapply (Pool.step_start _ _ _ 0%nat defaced_url []); [reflexivity | cbn; lia]. }
    eapply rtc_l.
    { eapply (Pool.step_finish _ _ _ 0%nat defaced_url [] []). reflexivity. }
    eapply rtc_l.
    { eapply (Pool.step_collect _ _ _ 0%nat (success_dict defaced_url 200 true true 7)).
      - cbn [Pool.pending Pool.init]. apply PoolFacts.futures_dom.
        rewrite PoolFacts.submit_all_ids. cbn [length seq].
        apply elem_of_cons. by left.
      - cbn [Pool.done]. rewrite lookup_insert_eq. reflexivity. }
    apply rtc_refl.
  - unfold Pool.collected, st. cbn [Pool.pending]. apply set_eq. intros i.
    rewrite elem_of_difference, PoolFacts.futures_dom.
    rewrite PoolFacts.submit_all_ids. cbn [length seq].
    rewrite list_elem_of_singleton. set_solver.
  - reflexivity.
  - vm_compute. reflexivity.
Qed.

Lemma run_checker_needs_a_worker_witness :
  exists out w',
    @run_checker ascii_only twice_world (py "sitemap.xml") (py "judol_report.json")
      0 10 out w'
    /\ raises out ValueError /\ w' = twice_world.
Proof.
  assert (parse_sitemap twice_world (py "sitemap.xml")
          = Return [py "http://a/"; py "http://a/"]) as Hp
    by (vm_compute; reflexivity).
  assert (0 <= 0)%Z as Hc by lia.
  pose proof (@run_no_worker ascii_only twice_world (py "sitemap.xml")
                (py "judol_report.json") 0 10 _ Hp Hc) as Hrun.
  eexists _, _. split; [exact Hrun |].
  apply (@run_checker_needs_a_worker ascii_only _ _ _ _ _ _ _ _ Hp Hc Hrun).
Defined.

Lemma run_checker_propagates_parse_failure_witness :
  exists out w',
    @run_checker ascii_only quiet_world (py "sitemap.xml") (py "judol_report.json")
      10 10 out w'
    /\ out = Raise {| exc_class := OSError;
                      exc_str := py "No such file or directory" |}
    /\ w' = quiet_world.
Proof.
  assert (parse_sitemap quiet_world (py "sitemap.xml")
          = Raise {| exc_class := OSError;
                     exc_str := py "No such file or directory" |}) as Hp
    by (vm_compute; reflexivity).
  pose proof (@run_parse_failed ascii_only quiet_world (py "sitemap.xml")
                (py "judol_report.json") 10 10 _ Hp) as Hrun.
  eexists _, _. split; [exact Hrun |].
  apply (@run_checker_propagates_parse_failure ascii_only _ _ _ _ _ _ _ _ Hp Hrun).
Defined.

Lemma run_checker_writes_only_output_witness :
  files (set_file defaced_world (py "judol_report.json")
           (Json.dumps (make_report (py "sitemap.xml") [defaced_url]
                          [success_dict defaced_url 200 true true 7])))
    !! py "sitemap.xml"
  = files defaced_world !! py "sitemap.xml".
Proof.
  apply (@run_checker_writes_only_output ascii_only _ _ _ _ _ _ _
           (py "sitemap.xml") defaced_world_run).
  apply (bool_decide_unpack _). vm_compute. exact I.
Defined.

Lemma run_checker_reports_every_url_witness :
  exists results,
    make_report (py "sitemap.xml") [defaced_url]
      [success_dict defaced_url 200 true true 7]
    = make_report (py "sitemap.xml") [defaced_url] results
    /\ result_url <$> results ≡ₚ Some <$> [defaced_url].
Proof.
  assert (parse_sitemap defaced_world (py "sitemap.xml") = Return [defaced_url])
    as Hp by (vm_compute; reflexivity).
  apply (@run_checker_reports_every_url ascii_only _ _ _ _ _ _ _ _
           Hp defaced_world_run).
Defined.

Lemma run_checker_empty_sitemap_witness :
  make_report (py "sitemap.xml") [] []
  = VDict [(py "sitemap", VStr (py "sitemap.xml")); (py "count", VInt 0);
           (py "results", VList [])]
  /\ files (set_file empty_world (py "judol_report.json")
              (Json.dumps (make_report (py "sitemap.xml") [] [])))
       !! py "judol_report.json"
     = Some ([0x7B; 0x0A] ++ py "  " ++ Json.encode_basestring (py "sitemap")
             ++ py ": " ++ Json.encode_basestring (py "sitemap.xml")
             ++ [0x2C; 0x0A]
             ++ py "  " ++ Json.encode_basestring (py "count") ++ py ": 0"
             ++ [0x2C; 0x0A]
             ++ py "  " ++ Json.encode_basestring (py "results") ++ py ": []"
             ++ [0x0A; 0x7D]).
Proof.
  assert (parse_sitemap empty_world (py "sitemap.xml") = Return [])
    as Hp by (vm_compute; reflexivity).
  apply (@run_checker_empty_sitemap ascii_only _ _ _ _ _ _ _ Hp empty_world_run).
Defined.

(** ** The command line: [main]

    [main] is modelled from the parsed arguments on.  What it prints is a
    list of texts, one per call of [print].  Where the script would leave
    the fragment modelled here (a subscript that raises, the [repr] of a
    list or dictionary inside a formatted string), the functions give
    [None]; the properties below show that a report made by [run_checker]
    never leads there.

    The calls of [print] that write the summary stand outside the [try]
    block.  [sys.stdout] encodes with the [strict] error handler, so a
    line with a character its encoding lacks makes [print] raise
    [UnicodeEncodeError], and that exception leaves [main]: the script
    then ends with a traceback and status 1.  [sys.stderr] encodes with
    [backslashreplace], so the [print] of the handler does not fail in
    this way. *)

(** [argparse.Namespace] after [parse_args] *)
Record Args := {
  args_sitemap : pystr;
  args_output : pystr;
  args_concurrency : Z;
  args_timeout : Z
}.

(** The defaults declared with [add_argument]. *)
Definition default_args : Args :=
{| args_sitemap := py "sitemap.xml";
   args_output := py "judol_report.json";
   args_concurrency := 10;
   args_timeout := 10 |}.

Record Console := { stdout : list pystr; stderr : list pystr }.

(** How a call of [main] ends: it returns [code], or an exception of
    class [c] leaves it, in both cases after printing [console]; or it
    leaves the fragment modelled. *)
Inductive main_result :=
| Exit (code : Z) (console : Console)
| Raised (c : ExcClass) (console : Console)
| Uncaught.

Definition dict_lookup (key : pystr) (d : list (pystr * value)) : option value :=
snd <$> find (fun kv : pystr * value => bool_decide (kv.1 = key)) d.

(** [r.get(key)]: [None] of Python when the key is missing. *)
Definition dict_get (r : value) (key : pystr) : option value :=
match r with
| VDict d => Some (default VNone (dict_lookup key d))
| _ => None
end.

(** [r[key]] *)
Definition dict_item (r : value) (key : pystr) : option value :=
match r with
| VDict d => dict_lookup key d
| _ => None
end.

(** Truth value of an object in a condition. *)
Definition truthy (v : value) : bool :=
match v with
| VNone => false
| VBool b => b
| VInt z => negb (z =? 0)%Z
| VStr s => match s with [] => false | _ => true end
| VList l => match l with [] => false | _ => true end
| VDict d => match d with [] => false | _ => true end
end.

(** [[r for r in results if r.get(key)]] *)
Fixpoint select (key : pystr) (results : list value) : option (list value) :=
match results with
| [] => Some []
| r :: rest =>
    v ← dict_get r key;
    sel ← select key rest;
    Some (if truthy v then r :: sel else sel)
end.

(** A value inside a formatted string. *)
Definition format_value (v : value) : option pystr :=
match v with
| VNone => Some (py "None")
| VBool true => Some (py "True")
| VBool false => Some (py "False")
| VInt z => Some (Json.intstr z)
| VStr s => Some s
| _ => None
end.

(** [f" - {r['url']} (status={r.get('status_code')})"] *)
Definition match_line (r : value) : option pystr :=
u ← dict_item r (py "url") ≫= format_value;
st ← dict_get r (py "status_code") ≫= format_value;
Some (py " - " ++ u ++ py " (status=" ++ st ++ py ")").

(** [f" - {r['url']}"] *)
Definition exact_line (r : value) : option pystr :=
u ← dict_item r (py "url") ≫= format_value;
Some (py " - " ++ u).

(** What [main] prints once [run_checker] has returned [report]. *)
Definition summary (args : Args) (report : value) : option (list pystr) :=
total ← dict_item report (py "count");
results ← match dict_item report (py "results") with
          | Some (VList l) => Some l
          | _ => None
          end;
found ← select (py "has_judol") results;
exact ← select (py "exact_judol") results;
total_s ← format_value total;
matches ← match found with
          | [] => Some []
          | _ :: _ => lines ← mapM match_line found;
                      Some (([0x0A] ++ py "Matches:") :: lines)
          end;
exacts ← match exact with
         | [] => Some []
         | _ :: _ => lines ← mapM exact_line exact;
                     Some (([0x0A] ++ py "Exact-body == " ++ [0x22] ++ py "judol"
                            ++ [0x22] ++ py " (likely defacement):") :: lines)
         end;
Some ([py "Sitemap: " ++ args_sitemap args ++ py "  URLs checked: " ++ total_s;
       py "Pages containing " ++ [0x22] ++ py "judol" ++ [0x22] ++ py ": "
         ++ Json.intstr (Z.of_nat (length found))]
      ++ matches ++ exacts
      ++ [py "Full report written to: " ++ args_output args]).

(** [print(line)] for each line in turn: the lines printed, and whether
    every [print] returned.  The first line that [sys.stdout] cannot
    encode is not written and ends the printing. *)
Fixpoint print_lines (w : World) (lines : list pystr) : list pystr * bool :=
match lines with
| [] => ([], true)
| line :: rest =>
    if forallb (stdout_encodable w) line
    then let '(printed, ok) := print_lines w rest in (line :: printed, ok)
    else ([], false)
end.

(** The same world with another terminal. *)
Definition with_terminal (w : World) (enc : N -> bool) : World :=
{| files := files w;
   strerror := strerror w;
   writable := writable w;
   xml_parse := xml_parse w;
   default_headers := default_headers w;
   http_get := http_get w;
   stdout_encodable := enc |}.

(** A terminal that takes ASCII only. *)
Definition ascii_terminal (c : N) : bool := c <? 0x80.

Section Main.
Context {U : UnicodeData}.

(** [main w args res w']: a call of [main] may end with [res] in world
    [w']. *)
Inductive main (w : World) (args : Args) : main_result -> World -> Prop :=
| main_failed e w' :
    run_checker w (args_sitemap args) (args_output args)
      (args_concurrency args) (args_timeout args) (Raise e) w' ->
    main w args
      (Exit 2 {| stdout := []; stderr := [py "Error: " ++ exc_str e] |}) w'
| main_done report w' :
    run_checker w (args_sitemap args) (args_output args)
      (args_concurrency args) (args_timeout args) (Return report) w' ->
    main w args
      (match summary args report with
       | Some lines =>
           match print_lines w lines with
           | (printed, true) => Exit 0 {| stdout := printed; stderr := [] |}
           | (printed, false) =>
               Raised UnicodeEncodeError {| stdout := printed; stderr := [] |}
           end
       | None => Uncaught
       end) w'.

(** A result as [fetch_url] makes it: the flags and the length are those
    of one body. *)
Definition is_scan_result (r : value) : Prop :=
(exists url status text,
   r = success_dict url status (Lower.has_judol text) (Lower.exact_judol text)
         (length text))
\/ (exists url error, r = failure_dict url error).

Definition flag (key : pystr) (r : value) : bool :=
match dict_get r key with
| Some v => truthy v
| None => false
end.

Lemma fetch_url_scan_result get session url timeout d :
  fetch_url get session url timeout = Return d -> is_scan_result d.
Proof.
  unfold fetch_url, is_scan_result.
  destruct (get session url timeout) as [r|e]; cbn.
  - destruct (r_text r) as [t|e]; cbn; intros [= <-]; eauto 10.
  - intros [= <-]. eauto.
Qed.

Lemma pool_results_are_scan_results w timeout workers urls st :
  rtc (Pool.step (task w timeout) workers) (Pool.init urls) st ->
  Forall is_scan_result (Pool.results st).
Proof.
  intros Hrtc. apply PoolFacts.inv_rtc in Hrtc.
  destruct (PoolFacts.inv_results _ _ _ _ Hrtc) as (cl & Hf & _).
  induction Hf as [|t v cl rs Htv _ IH]; constructor; [|done].
  by eapply fetch_url_scan_result.
Qed.

Lemma flag_success url status has exact len :
  flag (py "has_judol") (success_dict url status has exact len) = has
  /\ flag (py "exact_judol") (success_dict url status has exact len) = exact.
Proof. by destruct has, exact. Qed.

Lemma flag_failure url error :
  flag (py "has_judol") (failure_dict url error) = false
  /\ flag (py "exact_judol") (failure_dict url error) = false.
Proof. done. Qed.

Lemma select_filter key results :
  Forall is_scan_result results ->
  select key results = Some (filter (fun r => flag key r = true) results).
Proof.
  induction 1 as [|r rs Hr _ IH]; [done |].
  assert (exists d, r = VDict d) as [d ->]
    by (destruct Hr as [(? & ? & ? & ->) | (? & ? & ->)]; eexists; reflexivity).
  cbn [select dict_get]. rewrite IH. cbn [mbind option_bind].
  rewrite filter_cons.
  assert (flag key (VDict d) = truthy (default VNone (dict_lookup key d))) as E
    by reflexivity.
  destruct (truthy (default VNone (dict_lookup key d))).
  - by rewrite decide_True.
  - rewrite decide_False; [done | by rewrite E].
Qed.

Lemma scan_exact_has text :
  Lower.exact_judol text = true -> Lower.has_judol text = true.
Proof.
  intros H. apply has_judol_of_judol.
  unfold Lower.exact_judol in H. apply pystr_eqb_eq in H.
  pose proof (Lower.lower_judol_no_sigma _ H) as Hs.
  destruct (PyStr.strip_trimmed text) as (l & r & Ht & _).
  pose proof (Lower.lower_from_no_sigma [] (PyStr.strip text) [] Hs) as Hcore.
  rewrite app_nil_r in Hcore. cbn [Lower.lower_from] in Hcore.
  rewrite app_nil_r in Hcore.
  fold (Lower.lower (PyStr.strip text)) in Hcore. rewrite H in Hcore.
  unfold Lower.lower. rewrite Ht at 1.
  destruct (Lower.lower_from_app_r [] l (PyStr.strip text ++ r)) as [x ->].
  rewrite Lower.lower_from_no_sigma by done. rewrite <- Hcore.
  eexists x, _. reflexivity.
Qed.

Lemma found_are_successes results r :
  Forall is_scan_result results ->
  r ∈ filter (fun r => flag (py "has_judol") r = true) results ->
  exists url status exact len, r = success_dict url status true exact len.
Proof.
  intros Hall Hr. apply list_elem_of_filter in Hr as [Hflag Hr].
  rewrite Forall_forall in Hall.
  destruct (Hall r Hr) as [(url & st & text & ->) | (url & err & ->)].
  - destruct (flag_success url st (Lower.has_judol text)
                (Lower.exact_judol text) (length text)) as [E _].
    rewrite E in Hflag. rewrite Hflag. eauto.
  - by destruct (flag_failure url err) as [E _]; rewrite E in Hflag.
Qed.

Lemma match_lines_defined found :
  Forall (fun r => exists url status exact len,
                     r = success_dict url status true exact len) found ->
  exists lines, mapM match_line found = Some lines /\ length lines = length found.
Proof.
  induction 1 as [|r rs (url & st & ex & len & ->) _ (lines & IH & Hlen)].
  - by exists [].
  - exists ((py " - " ++ url ++ py " (status=" ++ Json.intstr st ++ py ")") :: lines).
    cbn [mapM]. rewrite IH. split; [reflexivity | cbn; by rewrite Hlen].
Qed.

Lemma exact_lines_defined exact :
  Forall (fun r => exists url status has ex len,
                     r = success_dict url status has ex len) exact ->
  exists lines, mapM exact_line exact = Some lines /\ length lines = length exact.
Proof.
  induction 1 as [|r rs (url & st & has & ex & len & ->) _ (lines & IH & Hlen)].
  - by exists [].
  - exists ((py " - " ++ url) :: lines).
    cbn [mapM]. rewrite IH. split; [reflexivity | cbn; by rewrite Hlen].
Qed.

End Main.

Section MainProperties.
Context {U : UnicodeData}.

Lemma exact_are_successes results r :
  Forall is_scan_result results ->
  r ∈ filter (fun r => flag (py "exact_judol") r = true) results ->
  flag (py "has_judol") r = true
  /\ exists url status has ex len, r = success_dict url status has ex len.
Proof.
  intros Hall Hr. apply list_elem_of_filter in Hr as [Hflag Hr].
  rewrite Forall_forall in Hall.
  destruct (Hall r Hr) as [(url & st & text & ->) | (url & err & ->)].
  - destruct (flag_success url st (Lower.has_judol text)
                (Lower.exact_judol text) (length text)) as [E1 E2].
    rewrite E2 in Hflag. split; [|eauto 10].
    rewrite E1. by apply scan_exact_has.
  - by destruct (flag_failure url err) as [_ E]; rewrite E in Hflag.
Qed.

(** The lines of the summary for a report of [run_checker]. *)
Lemma summary_of_report (args : Args) (sitemap : pystr) (urls : list pystr)
  (results : list value) :
  Forall is_scan_result results ->
  let found := filter (fun r => flag (py "has_judol") r = true) results in
  let exact := filter (fun r => flag (py "exact_judol") r = true) results in
  exists matches exacts,
    summary args (make_report sitemap urls results)
    = Some ([py "Sitemap: " ++ args_sitemap args ++ py "  URLs checked: "
               ++ Json.intstr (Z.of_nat (length urls));
             py "Pages containing " ++ [0x22] ++ py "judol" ++ [0x22] ++ py ": "
               ++ Json.intstr (Z.of_nat (length found))]
            ++ matches ++ exacts
            ++ [py "Full report written to: " ++ args_output args])
    /\ length matches = (if found is [] then 0 else S (length found))%nat
    /\ length exacts = (if exact is [] then 0 else S (length exact))%nat.
Proof.
  intros Hall found exact. unfold summary.
  change (dict_item (make_report sitemap urls results) (py "count"))
    with (Some (VInt (Z.of_nat (length urls)))).
  change (dict_item (make_report sitemap urls results) (py "results"))
    with (Some (VList results)).
  cbn [mbind option_bind]. rewrite !select_filter by done.
  cbn [mbind option_bind format_value]. fold found. fold exact.
  assert (Forall (fun r => exists url status ex len,
                     r = success_dict url status true ex len) found) as Hfound.
  { apply Forall_forall. intros r Hr. by eapply found_are_successes. }
  assert (Forall (fun r => exists url status has ex len,
                     r = success_dict url status has ex len) exact) as Hexact.
  { apply Forall_forall. intros r Hr.
    by destruct (exact_are_successes results r Hall Hr) as [_ ?]. }
  destruct (match_lines_defined found Hfound) as (ml & Hml & Hmlen).
  destruct (exact_lines_defined exact Hexact) as (el & Hel & Helen).
  rewrite Hml, Hel.
  destruct found as [|f fs], exact as [|x xs]; cbn [mbind option_bind];
    eexists _, _; (split; [reflexivity |]); split; cbn in *; lia.
Qed.

(** What [print_lines] gives: all the lines, or the lines before the
    first one the terminal cannot encode. *)
Lemma print_lines_spec (w : World) (lines : list pystr) :
  match print_lines w lines with
  | (printed, true) =>
      printed = lines
      /\ Forall (fun l => forallb (stdout_encodable w) l = true) lines
  | (printed, false) =>
      exists l rest,
        lines = printed ++ l :: rest
        /\ Forall (fun l => forallb (stdout_encodable w) l = true) printed
        /\ forallb (stdout_encodable w) l = false
  end.
Proof.
  induction lines as [|line rest IH]; [done |]. cbn [print_lines].
  destruct (forallb (stdout_encodable w) line) eqn:Hline.
  - destruct (print_lines w rest) as [printed [|]].
    + destruct IH as [-> Hall]. split; [done | by constructor].
    + destruct IH as (l & rest' & -> & Hall & Hl).
      exists l, rest'. split; [done |]. split; [by constructor | done].
  - exists line, rest. split; [done |]. split; [constructor | done].
Qed.

(** The terminal has no part in [run_checker]. *)
Lemma run_checker_with_terminal (w : World) (enc : N -> bool)
  (sitemap output : pystr) (concurrency timeout : Z)
  (out : outcome value) (w' : World) :
  run_checker w sitemap output concurrency timeout out w' ->
  run_checker (with_terminal w enc) sitemap output concurrency timeout out
    (with_terminal w' enc).
Proof.
  intros Hrun.
  destruct Hrun as [e He | urls Hp Hle | urls st e Hp Hc Hrtc Hraise
                   | urls st e Hp Hc Hrtc Hcol Hw
                   | urls st msg partial Hp Hc Hrtc Hcol Hw Henc
                   | urls st Hp Hc Hrtc Hcol Hw Henc].
  - by apply run_parse_failed.
  - by eapply run_no_worker.
  - by eapply run_task_raised.
  - by eapply run_open_failed.
  - by eapply (run_encode_failed (with_terminal w enc)).
  - by eapply (run_returns (with_terminal w enc)).
Qed.

(** X11. [main] returns 2 exactly when [run_checker] raised, then printing
    nothing but one line [Error: <message>] on the error stream.  When
    [run_checker] returned a report, no lookup in the report and no
    formatting step fails: the summary is made of lines of which the first
    gives the number of URLs of the sitemap and the last names the output
    file.  [main] then returns 0 after printing all of them, provided the
    terminal can encode every line; otherwise the [print] of the first
    line it cannot encode raises [UnicodeEncodeError], which leaves [main]
    after the lines before it have been printed. *)
Theorem main_outcomes (w : World) (args : Args) (res : main_result) (w' : World) :
  main w args res w' ->
  (exists e,
     run_checker w (args_sitemap args) (args_output args)
       (args_concurrency args) (args_timeout args) (Raise e) w'
     /\ res = Exit 2 {| stdout := []; stderr := [py "Error: " ++ exc_str e] |})
  \/ (exists report urls lines,
        run_checker w (args_sitemap args) (args_output args)
          (args_concurrency args) (args_timeout args) (Return report) w'
        /\ parse_sitemap w (args_sitemap args) = Return urls
        /\ summary args report = Some lines
        /\ head lines
           = Some (py "Sitemap: " ++ args_sitemap args ++ py "  URLs checked: "
                   ++ Json.intstr (Z.of_nat (length urls)))
        /\ last lines = Some (py "Full report written to: " ++ args_output args)
        /\ ((Forall (fun l => forallb (stdout_encodable w) l = true) lines
             /\ res = Exit 0 {| stdout := lines; stderr := [] |})
            \/ (exists printed l rest,
                  lines = printed ++ l :: rest
                  /\ Forall (fun l => forallb (stdout_encodable w) l = true) printed
                  /\ forallb (stdout_encodable w) l = false
                  /\ res = Raised UnicodeEncodeError
                             {| stdout := printed; stderr := [] |}))).
Proof.
  intros [e w1 Hrun | report w1 Hrun]; [left; eauto |]. right.
  inversion Hrun as [| | | | | urls st Hp Hc Hrtc Hcol Hw Henc Hout Hw'].
  pose proof (pool_results_are_scan_results _ _ _ _ _ Hrtc) as Hall.
  destruct (summary_of_report args (args_sitemap args) urls (Pool.results st) Hall)
    as (ml & el & Hsum & _ & _).
  subst report w1. rewrite Hsum.
  eexists _, urls, _. split; [exact Hrun |]. split; [done |].
  split; [exact Hsum |]. split; [reflexivity |].
  split; [rewrite !app_assoc; apply last_snoc |].
  match goal with
  | |- context [print_lines w ?ls] =>
      pose proof (print_lines_spec w ls) as Hprint;
      destruct (print_lines w ls) as [printed [|]]
  end.
  - destruct Hprint as [-> Henc']. by left.
  - destruct Hprint as (l & rest & Hl & Hpr & Hbad). right.
    exists printed, l, rest. done.
Qed.

(** X12. In the summary of a returned report, the pages listed as exact
    matches are all among the pages listed as matches, every page listed
    as a match is a successful fetch whose [has_judol] is true, and a
    failed fetch is listed nowhere. *)
Theorem main_lists_are_consistent (w : World) (sitemap output : pystr)
  (concurrency timeout : Z) (report : value) (w' : World) :
  run_checker w sitemap output concurrency timeout (Return report) w' ->
  exists results found exact,
    dict_item report (py "results") = Some (VList results)
    /\ select (py "has_judol") results = Some found
    /\ select (py "exact_judol") results = Some exact
    /\ (forall r, r ∈ exact -> r ∈ found)
    /\ (forall r, r ∈ found ->
          exists url status ex len, r = success_dict url status true ex len)
    /\ (forall url error,
          (failure_dict url error ∉ found) /\ (failure_dict url error ∉ exact)).
Proof.
  intros Hrun.
  inversion Hrun as [| | | | | urls st Hp Hc Hrtc Hcol Hw Henc Hout Hw'].
  pose proof (pool_results_are_scan_results _ _ _ _ _ Hrtc) as Hall.
  eexists (Pool.results st), _, _. split; [reflexivity |].
  split; [by apply select_filter |]. split; [by apply select_filter |].
  split; [|split].
  - intros r Hr. destruct (exact_are_successes _ _ Hall Hr) as [Hhas _].
    apply list_elem_of_filter in Hr as [_ Hr]. by apply list_elem_of_filter.
  - intros r Hr. by eapply found_are_successes.
  - intros url error. split; intros [Hflag _]%list_elem_of_filter;
      by destruct (flag_failure url error) as [E1 E2];
      rewrite ?E1, ?E2 in Hflag.
Qed.

(** X13. When the sitemap cannot be read or parsed, [main] ends with exit
    code 2, prints [Error: <message of that exception>] on the error
    stream and nothing else, and writes no file. *)
Theorem main_unreadable_sitemap (w : World) (args : Args) (e : Exception)
  (res : main_result) (w' : World) :
  parse_sitemap w (args_sitemap args) = Raise e ->
  main w args res w' ->
  res = Exit 2 {| stdout := []; stderr := [py "Error: " ++ exc_str e] |}
  /\ w' = w.
Proof.
  intros Hp [e1 w1 Hrun | report w1 Hrun];
    inversion Hrun; subst; try congruence.
  split; [|done]. repeat f_equal. congruence.
Qed.

(** X14. With a concurrency level of zero or less and a readable sitemap,
    [main] ends with exit code 2 and the message [Error: max_workers must
    be greater than 0], and writes no file. *)
Theorem main_nonpositive_concurrency (w : World) (args : Args)
  (urls : list pystr) (res : main_result) (w' : World) :
  parse_sitemap w (args_sitemap args) = Return urls ->
  (args_concurrency args <= 0)%Z ->
  main w args res w' ->
  res = Exit 2 {| stdout := [];
                  stderr := [py "Error: max_workers must be greater than 0"] |}
  /\ w' = w.
Proof.
  intros Hp Hc [e1 w1 Hrun | report w1 Hrun];
    inversion Hrun; subst; try congruence; try lia.
  done.
Qed.

End MainProperties.

(** On [defaced_world], whose URL holds a character outside ASCII: with
    a terminal that takes UTF-8 the whole summary is printed and [main]
    returns 0; with a terminal that takes ASCII only, the [print] of the
    first line with the URL raises. *)
Lemma main_outcomes_witness :
  (exists res w',
     @main ascii_only defaced_world
       {| args_sitemap := py "sitemap.xml"; args_output := py "judol_report.json";
          args_concurrency := 4; args_timeout := 10 |} res w'
     /\ res = Exit 0
          {| stdout :=
               [py "Sitemap: sitemap.xml  URLs checked: 1";
                py "Pages containing " ++ [0x22] ++ py "judol" ++ [0x22] ++ py ": 1";
                [0x0A] ++ py "Matches:";
                py " - " ++ defaced_url ++ py " (status=200)";
                [0x0A] ++ py "Exact-body == " ++ [0x22] ++ py "judol" ++ [0x22]
                  ++ py " (likely defacement):";
                py " - " ++ defaced_url;
                py "Full report written to: judol_report.json"];
             stderr := [] |})
  /\ (exists res w',
        @main ascii_only (with_terminal defaced_world ascii_terminal)
          {| args_sitemap := py "sitemap.xml"; args_output := py "judol_report.json";
             args_concurrency := 4; args_timeout := 10 |} res w'
        /\ res = Raised UnicodeEncodeError
             {| stdout :=
                  [py "Sitemap: sitemap.xml  URLs checked: 1";
                   py "Pages containing " ++ [0x22] ++ py "judol" ++ [0x22]
                     ++ py ": 1";
                   [0x0A] ++ py "Matches:"];
                stderr := [] |}).
Proof.
  pose (args := {| args_sitemap := py "sitemap.xml";
                   args_output := py "judol_report.json";
                   args_concurrency := 4; args_timeout := 10 |}).
  split.
  - pose proof (@main_done ascii_only defaced_world args _ _ defaced_world_run)
      as Hmain.
    eexists _, _. split; [exact Hmain |].
    destruct (@main_outcomes ascii_only _ _ _ _ Hmain)
      as [(e & _ & He) | (report & urls & lines & _ & _ & _ & _ & _ & _)].
    + vm_compute in He. discriminate.
    + vm_compute. reflexivity.
  - pose proof (@main_done ascii_only (with_terminal defaced_world ascii_terminal)
                  args _ _
                  (run_checker_with_terminal _ ascii_terminal _ _ _ _ _ _
                     defaced_world_run)) as Hmain.
    eexists _, _. split; [exact Hmain |].
    destruct (@main_outcomes ascii_only _ _ _ _ Hmain)
      as [(e & _ & He) | (report & urls & lines & _ & _ & _ & _ & _ & _)].
    + vm_compute in He. discriminate.
    + vm_compute. reflexivity.
Defined.

Lemma main_lists_are_consistent_witness :
  exists results found exact,
    dict_item (make_report (py "sitemap.xml") [defaced_url]
                 [success_dict defaced_url 200 true true 7]) (py "results")
    = Some (VList results)
    /\ select (py "has_judol") results = Some found
    /\ select (py "exact_judol") results = Some exact
    /\ (forall r, r ∈ exact -> r ∈ found).
Proof.
  destruct (@main_lists_are_consistent ascii_only _ _ _ _ _ _ _ defaced_world_run)
    as (results & found & exact & H1 & H2 & H3 & H4 & _).
  by exists results, found, exact.
Defined.

Lemma main_unreadable_sitemap_witness :
  exists res w',
    @main ascii_only quiet_world default_args res w'
    /\ res = Exit 2 {| stdout := [];
                       stderr := [py "Error: No such file or directory"] |}
    /\ w' = quiet_world.
Proof.
  assert (parse_sitemap quiet_world (args_sitemap default_args)
          = Raise {| exc_class := OSError;
                     exc_str := py "No such file or directory" |}) as Hp
    by (vm_compute; reflexivity).
  pose proof (@main_failed ascii_only quiet_world default_args _ _
                (@run_parse_failed ascii_only quiet_world _ _ _ _ _ Hp)) as Hmain.
  eexists _, _. split; [exact Hmain |].
  apply (@main_unreadable_sitemap ascii_only _ _ _ _ _ Hp Hmain).
Defined.

Lemma main_nonpositive_concurrency_witness :
  exists res w',
    @main ascii_only twice_world
      {| args_sitemap := py "sitemap.xml"; args_output := py "judol_report.json";
         args_concurrency := -1; args_timeout := 10 |} res w'
    /\ res = Exit 2 {| stdout := [];
                       stderr := [py "Error: max_workers must be greater than 0"] |}
    /\ w' = twice_world.
Proof.
  pose (args := {| args_sitemap := py "sitemap.xml";
                   args_output := py "judol_report.json";
                   args_concurrency := -1; args_timeout := 10 |}).
  assert (parse_sitemap twice_world (args_sitemap args)
          = Return [py "http://a/"; py "http://a/"]) as Hp
    by (vm_compute; reflexivity).
  assert (args_concurrency args <= 0)%Z as Hc by (cbn; lia).
  pose proof (@main_failed ascii_only twice_world args _ _
                (@run_no_worker ascii_only twice_world _ _ _ _ _ Hp Hc)) as Hmain.
  eexists _, _. split; [exact Hmain |].
  apply (@main_nonpositive_concurrency ascii_only _ _ _ _ _ Hp Hc Hmain).
Defined.

(** ** HTTPFetcher: the session for any arguments *)

Section SessionFacts.
Context {U : UnicodeData}.

(** X15. Whatever its arguments, [make_session] leaves exactly two
    adapters, [https://] before [http://], both with the retry policy
    built from [retries] and [backoff]: the adapters a fresh session comes
    with, which retry nothing, are replaced.  The [User-Agent] header is
    set under any letter case of its name, and every other default header
    is kept. *)
Theorem make_session_any_arguments (w : World) (retries : Z) (backoff : Q)
  (timeout : Z) :
  let s := make_session w retries backoff timeout in
  let policy := {| total := retries; backoff_factor := backoff;
                   status_forcelist := [500; 502; 503; 504]%Z |} in
  adapters s = [(py "https://", {| max_retries := policy |});
                (py "http://", {| max_retries := policy |})]
  /\ (forall name,
        Lower.lower name = py "user-agent" ->
        header s name = Some (py "judol-checker/1.0"))
  /\ (forall name,
        Lower.lower name ≠ py "user-agent" ->
        header s name = snd <$> default_headers w !! Lower.lower name).
Proof.
  intros s policy. split; [vm_compute; reflexivity |].
  assert (headers s
          = <[py "user-agent" := (py "User-Agent", py "judol-checker/1.0")]>
              (default_headers w)) as Hh by reflexivity.
  unfold header. rewrite Hh. split; intros name Hname.
  - rewrite Hname. by rewrite lookup_insert_eq.
  - by rewrite lookup_insert_ne.
Qed.

End SessionFacts.
